(** * A minimal HTTP file server: the per-connection request pipeline

    Shallow embedding of the two server variants of the repository,
    [src/server.py] (module [Minimal]) and the later, extended
    [src/临时.py] (module [Extended]), and theorems about
    [SimpleWebServer.handle_client] and [SimpleWebServer.create_response],
    and then about [SimpleWebServer.__init__] and [SimpleWebServer.start].

    Python values are modelled as follows: a [str] is the list of its
    Unicode code points, a [bytes] object is a list of bytes, a dict whose
    iteration order is observed is an association list in insertion order.
    Socket and filesystem calls are answered by a read-only [World] and
    recorded in an event trace; a Python exception is the [Raise] case of
    [result].  The calls of [print] are left out: the console is not part
    of what a handler does to its connection. *)

From Stdlib.Strings Require Import String Ascii Byte.
From Stdlib Require DecimalString.
From Stdlib Require Import List Arith NArith ZArith Lia Bool.
Import ListNotations.
Open Scope N_scope.

Set Implicit Arguments.

(** ** Python sequences: the operations shared by [str] and [bytes] *)

Section Sequences.
Variable A : Type.
Variable eqb : A -> A -> bool.

Fixpoint seq_eqb (s t : list A) : bool :=
  match s, t with
  | [], [] => true
  | a :: s', b :: t' => eqb a b && seq_eqb s' t'
  | _, _ => false
  end.

(** [s.startswith(p)] *)
Fixpoint startswith (s p : list A) : bool :=
  match p, s with
  | [], _ => true
  | b :: p', a :: s' => eqb a b && startswith s' p'
  | _ :: _, [] => false
  end.

(** [s.endswith(p)] *)
Definition endswith (s p : list A) : bool :=
  startswith (rev s) (rev p).

(** [c in s] for a single element [c] *)
Definition contains (c : A) (s : list A) : bool :=
  existsb (eqb c) s.

(** [s.lstrip(chars)] *)
Fixpoint lstrip (chars s : list A) : list A :=
  match s with
  | [] => []
  | a :: s' => if contains a chars then lstrip chars s' else s
  end.

(** [s.split(sep)] for a non-empty [sep]: the matches are taken from the
    left and do not overlap.  [skip] counts the elements of the separator
    just matched that are still to be passed over and [cur] is the piece
    being read, latest element first. *)
Fixpoint split_from (sep : list A) (skip : nat) (cur s : list A) : list (list A) :=
  match s with
  | [] => [rev cur]
  | a :: s' =>
      match skip with
      | S k => split_from sep k cur s'
      | O =>
          if startswith s sep
          then rev cur :: split_from sep (length sep - 1) [] s'
          else split_from sep 0 (a :: cur) s'
      end
  end.

Definition split (sep s : list A) : list (list A) :=
  split_from sep 0 [] s.

(** [sep.join(pieces)] *)
Fixpoint join_seq (sep : list A) (pieces : list (list A)) : list A :=
  match pieces with
  | [] => []
  | [p] => p
  | p :: rest => p ++ sep ++ join_seq sep rest
  end.

(** [s.replace(old, new)] for a non-empty [old] *)
Definition replace_all (old new s : list A) : list A :=
  join_seq new (split old s).
End Sequences.

Unset Implicit Arguments.

(** ** [str] and [bytes] *)

(** A character is its Unicode code point. *)
Abbreviation char := N (only parsing).
Definition str := list char.
Definition bytes := list byte.

Definition str_eqb : str -> str -> bool := seq_eqb N.eqb.

Definition byte_of_N (n : N) : byte :=
  match Byte.of_N n with
  | Some b => b
  | None => x00
  end.

(** *** The UTF-8 codec ([bytes.decode('utf-8', errors)] and
    [str.encode('utf-8')]) *)

Inductive error_handler := Strict | Replace.

(** What the decoder does with an ill-formed sequence: [Strict] raises
    [UnicodeDecodeError], [Replace] emits U+FFFD and goes on with [k]. *)
Definition on_error (h : error_handler) (k : option str) : option str :=
  match h with
  | Strict => None
  | Replace => option_map (cons 0xFFFD) k
  end.

Definition emit (c : char) (k : option str) : option str :=
  option_map (cons c) k.

Definition is_continuation (b : N) : bool :=
  (0x80 <=? b) && (b <? 0xC0).

(** The decoder of CPython: an invalid start byte is an error of one byte,
    an invalid continuation byte is an error that spans the bytes accepted
    so far, and a sequence cut short by the end of the data is one error. *)
Fixpoint utf8_decode (h : error_handler) (s : bytes) {struct s} : option str :=
  match s with
  | [] => Some []
  | b1 :: t1 =>
      let ch := Byte.to_N b1 in
      if ch <? 0x80 then emit ch (utf8_decode h t1)
      else if ch <? 0xC2 then on_error h (utf8_decode h t1)
      else if ch <? 0xE0 then
        match t1 with
        | [] => on_error h (Some [])
        | b2 :: t2 =>
            let ch2 := Byte.to_N b2 in
            if is_continuation ch2
            then emit ((ch - 0xC0) * 0x40 + (ch2 - 0x80)) (utf8_decode h t2)
            else on_error h (utf8_decode h t1)
        end
      else if ch <? 0xF0 then
        match t1 with
        | [] => on_error h (Some [])
        | b2 :: t2 =>
            let ch2 := Byte.to_N b2 in
            if negb (is_continuation ch2)
               || (ch =? 0xE0) && (ch2 <? 0xA0)
               || (ch =? 0xED) && (0xA0 <=? ch2)
            then on_error h (utf8_decode h t1)
            else
              match t2 with
              | [] => on_error h (Some [])
              | b3 :: t3 =>
                  let ch3 := Byte.to_N b3 in
                  if is_continuation ch3
                  then emit ((ch - 0xE0) * 0x1000 + (ch2 - 0x80) * 0x40 + (ch3 - 0x80))
                            (utf8_decode h t3)
                  else on_error h (utf8_decode h t2)
              end
        end
      else if ch <? 0xF5 then
        match t1 with
        | [] => on_error h (Some [])
        | b2 :: t2 =>
            let ch2 := Byte.to_N b2 in
            if negb (is_continuation ch2)
               || (ch =? 0xF0) && (ch2 <? 0x90)
               || (ch =? 0xF4) && (0x90 <=? ch2)
            then on_error h (utf8_decode h t1)
            else
              match t2 with
              | [] => on_error h (Some [])
              | b3 :: t3 =>
                  let ch3 := Byte.to_N b3 in
                  if negb (is_continuation ch3)
                  then on_error h (utf8_decode h t2)
                  else
                    match t3 with
                    | [] => on_error h (Some [])
                    | b4 :: t4 =>
                        let ch4 := Byte.to_N b4 in
                        if is_continuation ch4
                        then emit ((ch - 0xF0) * 0x40000 + (ch2 - 0x80) * 0x1000
                                   + (ch3 - 0x80) * 0x40 + (ch4 - 0x80))
                                  (utf8_decode h t4)
                        else on_error h (utf8_decode h t3)
                    end
              end
        end
      else on_error h (utf8_decode h t1)
  end.

(** A code point that [str.encode('utf-8')] accepts: a Unicode scalar value
    (a lone surrogate raises [UnicodeEncodeError]). *)
Definition is_scalar (c : char) : bool :=
  (c <? 0xD800) || (0xE000 <=? c) && (c <? 0x110000).

Definition utf8_encode_char (c : char) : option bytes :=
  if c <? 0x80 then Some [byte_of_N c]
  else if c <? 0x800 then
    Some [byte_of_N (0xC0 + c / 0x40); byte_of_N (0x80 + c mod 0x40)]
  else if c <? 0x10000 then
    if is_scalar c
    then Some [byte_of_N (0xE0 + c / 0x1000);
               byte_of_N (0x80 + (c / 0x40) mod 0x40);
               byte_of_N (0x80 + c mod 0x40)]
    else None
  else if c <? 0x110000 then
    Some [byte_of_N (0xF0 + c / 0x40000);
          byte_of_N (0x80 + (c / 0x1000) mod 0x40);
          byte_of_N (0x80 + (c / 0x40) mod 0x40);
          byte_of_N (0x80 + c mod 0x40)]
  else None.

(** The strings that [str.encode('utf-8')] accepts. *)
Definition encodable (s : str) : Prop := Forall (fun c => is_scalar c = true) s.

Fixpoint utf8_encode (s : str) : option bytes :=
  match s with
  | [] => Some []
  | c :: s' =>
      match utf8_encode_char c, utf8_encode s' with
      | Some b, Some bs => Some (b ++ bs)
      | _, _ => None
      end
  end.

(** *** Literals

    A string literal of the source is written as it stands there; [u]
    reads the UTF-8 text of the Rocq literal into code points and [b]
    takes its bytes. *)

Definition b (lit : string) : bytes := list_byte_of_string lit.

Definition u (lit : string) : str :=
  match utf8_decode Strict (b lit) with
  | Some s => s
  | None => []
  end.

(** *** [str(n)] for a non-negative integer *)

Definition str_of_int (n : N) : str :=
  u (DecimalString.NilZero.string_of_uint (N.to_uint n)).

(** Characters that a Rocq literal cannot hold as the source writes them. *)
Definition CRLF : str := [0x0D; 0x0A].
Definition dquote : str := [0x22].
Definition backslash : str := [0x5C].

(** *** [str.isspace] on one character and [str.split()] *)

Definition isspace (c : char) : bool :=
  (0x09 <=? c) && (c <=? 0x0D) || (0x1C <=? c) && (c <=? 0x20)
  || (c =? 0x85) || (c =? 0xA0) || (c =? 0x1680)
  || (0x2000 <=? c) && (c <=? 0x200A)
  || (c =? 0x2028) || (c =? 0x2029) || (c =? 0x202F) || (c =? 0x205F)
  || (c =? 0x3000).

(** [s.split()]: the maximal runs of characters that are not whitespace.
    [cur] is the run being read, latest character first. *)
Fixpoint split_whitespace_from (cur s : str) : list str :=
  match s with
  | [] => match cur with [] => [] | _ => [rev cur] end
  | c :: s' =>
      if isspace c
      then match cur with
           | [] => split_whitespace_from [] s'
           | _ => rev cur :: split_whitespace_from [] s'
           end
      else split_whitespace_from (c :: cur) s'
  end.

Definition split_whitespace (s : str) : list str :=
  split_whitespace_from [] s.

(** ** [urllib.parse.unquote] *)

Module Urllib.

(** One character of ['0123456789ABCDEFabcdef'] and its value. *)
Definition hexdig (c : byte) : option N :=
  let n := Byte.to_N c in
  if (0x30 <=? n) && (n <=? 0x39) then Some (n - 0x30)
  else if (0x41 <=? n) && (n <=? 0x46) then Some (n - 0x41 + 10)
  else if (0x61 <=? n) && (n <=? 0x66) then Some (n - 0x61 + 10)
  else None.

(** One piece that followed a ['%']: its first two characters are looked
    up in the table of hexadecimal pairs, and on a [KeyError] the ['%']
    and the piece are kept as they are. *)
Definition unquote_item (item : bytes) : bytes :=
  match item with
  | h :: l :: rest =>
      match hexdig h, hexdig l with
      | Some x, Some y => byte_of_N (16 * x + y) :: rest
      | _, _ => b "%" ++ item
      end
  | _ => b "%" ++ item
  end.

(** [unquote_to_bytes] on a [str]: the string is encoded as UTF-8 and
    split at ['%']. *)
Definition unquote_to_bytes (string : str) : bytes :=
  match utf8_encode string with
  | None => []
  | Some data =>
      match split Byte.eqb (b "%") data with
      | [] => data
      | first :: items => first ++ flat_map unquote_item items
      end
  end.

Definition unquote_run (run : str) : str :=
  match utf8_decode Replace (unquote_to_bytes run) with
  | Some s => s
  | None => []
  end.

(** The pieces of [_asciire.split(string)], each ASCII run unquoted and
    decoded with [errors='replace'], the characters between them kept.
    [run] is the ASCII run being read, latest character first. *)
Fixpoint unquote_from (run string : str) : str :=
  match string with
  | [] => unquote_run (rev run)
  | c :: rest =>
      if c <? 0x80 then unquote_from (c :: run) rest
      else unquote_run (rev run) ++ c :: unquote_from [] rest
  end.

Definition unquote (string : str) : str :=
  if negb (contains N.eqb 0x25 string) then string
  else unquote_from [] string.

(** Percent-encoding, for the statements: a byte that [safe] accepts is
    written as it is, any other as ['%'] and two hexadecimal digits, as
    [urllib.parse.quote] does. *)
Definition hex_digit (d : N) : char :=
  if d <? 10 then 0x30 + d else 0x41 + (d - 10).

Definition quote_byte (safe : byte -> bool) (x : byte) : str :=
  if safe x then [Byte.to_N x]
  else [0x25; hex_digit (Byte.to_N x / 16); hex_digit (Byte.to_N x mod 16)].

Definition quote (safe : byte -> bool) (data : bytes) : str :=
  flat_map (quote_byte safe) data.

(** The bytes that [quote] leaves alone by default: letters, digits and
    [_.-~/]. *)
Definition always_safe (x : byte) : bool :=
  let n := Byte.to_N x in
  (0x41 <=? n) && (n <=? 0x5A) || (0x61 <=? n) && (n <=? 0x7A)
  || (0x30 <=? n) && (n <=? 0x39)
  || (n =? 0x5F) || (n =? 0x2E) || (n =? 0x2D) || (n =? 0x7E) || (n =? 0x2F).

(** The bytes that [quote] writes, for the proofs: the two digits of a
    quoted byte, a quoted byte, and the pieces of a quoted sequence
    between the ['%'], [cur] being the piece that is open, latest byte
    first. *)
Definition hi (x : byte) : byte := byte_of_N (hex_digit (Byte.to_N x / 16)).
Definition lo (x : byte) : byte := byte_of_N (hex_digit (Byte.to_N x mod 16)).

Definition quoted_byte (safe : byte -> bool) (x : byte) : bytes :=
  if safe x then [x] else [x25; hi x; lo x].

Fixpoint pieces (safe : byte -> bool) (cur data : bytes) : list bytes :=
  match data with
  | [] => [rev cur]
  | x :: data' =>
      if safe x then pieces safe (x :: cur) data'
      else rev cur :: pieces safe [lo x; hi x] data'
  end.

End Urllib.

(** ** [os.path]

    The paths of the specification are POSIX paths ([/srv/root]), so
    [os.path] is taken to be [posixpath]. *)

Module OsPath.

Definition sep : str := u "/".

(** [os.path.join(a, p)] with one component [p]. *)
Definition join (a p : str) : str :=
  if startswith N.eqb p sep then p
  else if match a with [] => true | _ => endswith N.eqb a sep end then a ++ p
  else a ++ sep ++ p.

Definition isabs (path : str) : bool := startswith N.eqb path sep.

(** The body of the loop of [normpath] for one component. *)
Definition normpath_step (initial_slashes : nat) (new_comps : list str) (comp : str)
  : list str :=
  if str_eqb comp [] || str_eqb comp (u ".") then new_comps
  else if negb (str_eqb comp (u ".."))
          || (Nat.eqb initial_slashes 0 && match new_comps with [] => true | _ => false end)
          || match new_comps with
             | [] => false
             | _ => str_eqb (last new_comps []) (u "..")
             end
  then new_comps ++ [comp]
  else match new_comps with
       | [] => new_comps
       | _ => removelast new_comps
       end.

Definition normpath (path : str) : str :=
  match path with
  | [] => u "."
  | _ =>
      let initial_slashes : nat :=
        if startswith N.eqb path sep
        then if startswith N.eqb path (sep ++ sep)
                && negb (startswith N.eqb path (sep ++ sep ++ sep))
             then 2%nat else 1%nat
        else 0%nat in
      let comps := split N.eqb sep path in
      let new_comps := fold_left (normpath_step initial_slashes) comps [] in
      let path := join_seq sep new_comps in
      let path := concat (repeat sep initial_slashes) ++ path in
      match path with
      | [] => u "."
      | _ => path
      end
  end.

(** [os.path.abspath(path)]; [cwd] is what [os.getcwd()] returns. *)
Definition abspath (cwd path : str) : str :=
  normpath (if isabs path then path else join cwd path).

(** [os.path.basename(p)]: what follows the last ['/']. *)
Definition basename (p : str) : str :=
  last (split N.eqb sep p) [].

End OsPath.

(** ** Exceptions, the world of one connection and the handler monad *)

(** The exceptions the handler can meet; all are caught by
    [except Exception]. *)
Inductive exn := UnicodeDecodeError | UnicodeEncodeError | OSError.

Inductive result (A : Type) :=
| Ok (a : A)
| Raise (e : exn).
Arguments Ok {A} a.
Arguments Raise {A} e.

(** What a handler does to its socket and to the filesystem, in order.
    [Sendall data ok] is a call [sendall(data)] that returned ([ok]) or
    raised; [OpenRead p] is [open(p, 'rb')] followed by [read()]. *)
Inductive event :=
| Recv (bufsize : N)
| Sendall (data : bytes) (ok : bool)
| Close
| Isdir (p : str)
| Isfile (p : str)
| Access (p : str)
| OpenRead (p : str)
| Listdir (p : str).

(** What the handler of one connection finds around it.  The client socket:
    what [recv] returns, and whether the [n]-th call of [sendall] (from 0)
    returns or raises.  The filesystem, by path as the call receives it.
    [guess_type] is the MIME table of [mimetypes]. *)
Record World := {
  sock_recv : result bytes;
  sock_sendall : nat -> bool;
  getcwd : str;
  isdir : str -> bool;
  isfile : str -> bool;
  access_R_OK : str -> bool;
  read_file : str -> result bytes;
  listdir : str -> result (list str);
  guess_type : str -> option str
}.

Definition trace := list event.

Definition M (A : Type) : Type := World -> trace -> result A * trace.

Definition ret {A} (a : A) : M A := fun _ tr => (Ok a, tr).

Definition bind {A B} (m : M A) (k : A -> M B) : M B :=
  fun w tr =>
    match m w tr with
    | (Ok a, tr') => k a w tr'
    | (Raise e, tr') => (Raise e, tr')
    end.

Definition lift {A} (r : result A) : M A := fun _ tr => (r, tr).

Declare Scope py_scope.
Delimit Scope py_scope with py.
Notation "x <- m ;; k" := (bind m (fun x => k))
  (at level 100, m at next level, right associativity) : py_scope.

(** [try: body  except Exception as e: handler e] *)
Definition try_except {A} (body : M A) (handler : exn -> M A) : M A :=
  fun w tr =>
    match body w tr with
    | (Ok a, tr') => (Ok a, tr')
    | (Raise e, tr') => handler e w tr'
    end.

(** [try: body  finally: final]; a [return] in [body] runs [final] too. *)
Definition try_finally {A} (body : M A) (final : M unit) : M A :=
  fun w tr =>
    match body w tr with
    | (r, tr') =>
        match final w tr' with
        | (Ok _, tr'') => (r, tr'')
        | (Raise e, tr'') => (Raise e, tr'')
        end
    end.

(** The number of calls of [sendall] so far. *)
Fixpoint sendall_calls (tr : trace) : nat :=
  match tr with
  | [] => 0
  | Sendall _ _ :: tr' => S (sendall_calls tr')
  | _ :: tr' => sendall_calls tr'
  end.

Definition recv (bufsize : N) : M bytes :=
  fun w tr => (sock_recv w, tr ++ [Recv bufsize]).

Definition sendall (data : bytes) : M unit :=
  fun w tr =>
    let ok := sock_sendall w (sendall_calls tr) in
    (if ok then Ok tt else Raise OSError, tr ++ [Sendall data ok]).

Definition close : M unit := fun _ tr => (Ok tt, tr ++ [Close]).

Definition os_path_abspath (path : str) : M str :=
  fun w tr => (Ok (OsPath.abspath (getcwd w) path), tr).

Definition os_path_isdir (p : str) : M bool :=
  fun w tr => (Ok (isdir w p), tr ++ [Isdir p]).

Definition os_path_isfile (p : str) : M bool :=
  fun w tr => (Ok (isfile w p), tr ++ [Isfile p]).

Definition os_access_R_OK (p : str) : M bool :=
  fun w tr => (Ok (access_R_OK w p), tr ++ [Access p]).

Definition open_rb_read (p : str) : M bytes :=
  fun w tr => (read_file w p, tr ++ [OpenRead p]).

Definition os_listdir (p : str) : M (list str) :=
  fun w tr => (listdir w p, tr ++ [Listdir p]).

Definition mimetypes_guess_type (p : str) : M (option str) :=
  fun w tr => (Ok (guess_type w p), tr).

(** [data.decode('utf-8')] and [text.encode('utf-8')] *)
Definition decode (data : bytes) : result str :=
  match utf8_decode Strict data with
  | Some s => Ok s
  | None => Raise UnicodeDecodeError
  end.

Definition encode (text : str) : result bytes :=
  match utf8_encode text with
  | Some d => Ok d
  | None => Raise UnicodeEncodeError
  end.

(** ** Values shared by the two variants *)

(** The [content] argument of [create_response]: [bytes] or [str]. *)
Inductive content :=
| Bytes (data : bytes)
| Str (text : str).

(** [if content:] *)
Definition truthy (c : content) : bool :=
  match c with
  | Bytes [] | Str [] => false
  | _ => true
  end.

(** [len(content)]: bytes of a [bytes], characters of a [str]. *)
Definition len (c : content) : N :=
  match c with
  | Bytes data => N.of_nat (length data)
  | Str text => N.of_nat (length text)
  end.

(** The content as [create_response] appends it to the message: a [str] is
    encoded. *)
Definition encoded_content (c : content) : option bytes :=
  match c with
  | Bytes data => Some data
  | Str text => utf8_encode text
  end.

(** A dict of headers, in insertion order. *)
Definition dict := list (str * str).

(** [d[k] = v]: a key that is there keeps its place. *)
Fixpoint setitem (d : dict) (k v : str) : dict :=
  match d with
  | [] => [(k, v)]
  | (k', v') :: d' =>
      if str_eqb k' k then (k, v) :: d' else (k', v') :: setitem d' k v
  end.

(** [d.update(other)] *)
Definition update (d other : dict) : dict :=
  fold_left (fun acc kv => setitem acc (fst kv) (snd kv)) other d.

(** [mime_type or default] *)
Definition or_default (mime_type : option str) (default : str) : str :=
  match mime_type with
  | Some ((_ :: _) as t) => t
  | _ => default
  end.

Record SimpleWebServer := {
  host : str;
  port : N;
  root_dir : str
}.

(** [SimpleWebServer.__init__], in a process whose working directory is
    [cwd] (the socket it creates plays no part in a handler). *)
Definition init (cwd host : str) (port : N) (root_dir : str) : SimpleWebServer :=
  {| host := host; port := port; root_dir := OsPath.abspath cwd root_dir |}.

Open Scope py_scope.

(** ** [src/server.py] *)

Module Minimal.

(** [create_response(self, status_code, status_message, content=b'',
    content_type='text/html')] *)
Definition create_response (status_code : N) (status_message : str)
           (content : content) (content_type : str) : result bytes :=
  let response_line :=
    u "HTTP/1.1 " ++ str_of_int status_code ++ u " " ++ status_message ++ CRLF in
  let headers : dict :=
    [(u "Server", u "SimplePythonWebServer"); (u "Connection", u "close")] in
  let headers :=
    if truthy content
    then setitem (setitem headers (u "Content-Length") (str_of_int (len content)))
                 (u "Content-Type") content_type
    else headers in
  let headers_str :=
    join_seq CRLF (map (fun kv => fst kv ++ u ": " ++ snd kv) headers)
    ++ CRLF ++ CRLF in
  match encode response_line, encode headers_str with
  | Ok l, Ok h =>
      let response := l ++ h in
      if truthy content
      then match content with
           | Bytes data => Ok (response ++ data)
           | Str text =>
               match encode text with
               | Ok data => Ok (response ++ data)
               | Raise e => Raise e
               end
           end
      else Ok response
  | Raise e, _ => Raise e
  | _, Raise e => Raise e
  end.

(** The body of the [try] of [handle_client]; each [return] ends it. *)
Definition handle_client_try (self : SimpleWebServer) : M unit :=
  data <- recv 1024 ;;
  request_data <- lift (decode data) ;;
  match request_data with
  | [] => ret tt
  | _ =>
      let request_line := nth 0 (split N.eqb CRLF request_data) [] in
      let parts := split_whitespace request_line in
      if Nat.ltb (length parts) 2 then
        response <- lift (create_response 400 (u "Bad Request") (Bytes []) (u "text/html")) ;;
        sendall response
      else
        let method := nth 0 parts [] in
        let path := nth 1 parts [] in
        if negb (str_eqb method (u "GET")) then
          response <- lift (create_response 405 (u "Method Not Allowed")
                                            (Bytes []) (u "text/html")) ;;
          sendall response
        else
          let path := if str_eqb path (u "/") then u "/index.html" else path in
          let file_path := OsPath.join (root_dir self) (lstrip N.eqb (u "/") path) in
          abs_path <- os_path_abspath file_path ;;
          if negb (startswith N.eqb abs_path (root_dir self)) then
            response <- lift (create_response 403 (u "Forbidden") (Bytes []) (u "text/html")) ;;
            sendall response
          else
            is_file <- os_path_isfile file_path ;;
            readable <- (if is_file then os_access_R_OK file_path else ret false) ;;
            response <-
              (if readable then
                 content <- open_rb_read file_path ;;
                 mime_type <- mimetypes_guess_type file_path ;;
                 let mime_type := or_default mime_type (u "text/plain") in
                 lift (create_response 200 (u "OK") (Bytes content) mime_type)
               else
                 lift (create_response 404 (u "Not Found")
                                       (Bytes (b "<h1>404 Not Found</h1>")) (u "text/html"))) ;;
            sendall response
  end.

Definition handle_client_except (e : exn) : M unit :=
  response <- lift (create_response 500 (u "Internal Server Error")
                      (Bytes (b "<h1>500 Internal Server Error</h1>")) (u "text/html")) ;;
  sendall response.

Definition handle_client (self : SimpleWebServer) : M unit :=
  try_finally (try_except (handle_client_try self) handle_client_except) close.

End Minimal.

(** ** [src/临时.py] *)

Module Extended.

(** [create_response(self, status_code, status_message, content=b'',
    content_type='text/html', extra_headers=None)] *)
Definition create_response (status_code : N) (status_message : str)
           (content : content) (content_type : str) (extra_headers : option dict)
  : result bytes :=
  let response_line :=
    u "HTTP/1.1 " ++ str_of_int status_code ++ u " " ++ status_message ++ CRLF in
  let headers : dict :=
    [(u "Server", u "SimplePythonWebServer"); (u "Connection", u "close")] in
  let headers :=
    if truthy content
    then setitem (setitem headers (u "Content-Length") (str_of_int (len content)))
                 (u "Content-Type") content_type
    else headers in
  let headers :=
    match extra_headers with
    | Some ((_ :: _) as extra) => update headers extra
    | _ => headers
    end in
  let headers_str :=
    join_seq CRLF (map (fun kv => fst kv ++ u ": " ++ snd kv) headers)
    ++ CRLF ++ CRLF in
  match encode response_line, encode headers_str with
  | Ok l, Ok h =>
      let response := l ++ h in
      if truthy content
      then match content with
           | Bytes data => Ok (response ++ data)
           | Str text =>
               match encode text with
               | Ok data => Ok (response ++ data)
               | Raise e => Raise e
               end
           end
      else Ok response
  | Raise e, _ => Raise e
  | _, Raise e => Raise e
  end.

(** One turn of the loop over [items]: the link of one entry. *)
Definition listing_item (path item : str) : str :=
  let item_path := replace_all N.eqb backslash (u "/") (OsPath.join path item) in
  u "<li><a href=" ++ dquote ++ item_path ++ dquote ++ u ">" ++ item ++ u "</a></li>".

(** The [content] of a directory listing, as the loop builds it. *)
Definition listing (path : str) (items : list str) : str :=
  fold_left (fun content item => content ++ listing_item path item) items
            (u "<h1>目录列表：" ++ path ++ u "</h1><ul>")
  ++ u "</ul>".

Definition download_exts : list str :=
  [u ".doc"; u ".docx"; u ".pdf"; u ".xlsx"; u ".zip"].

(** The body of the [try] of [handle_client]; each [return] ends it. *)
Definition handle_client_try (self : SimpleWebServer) : M unit :=
  data <- recv 1024 ;;
  request_data <- lift (decode data) ;;
  match request_data with
  | [] => ret tt
  | _ =>
      let request_line := nth 0 (split N.eqb CRLF request_data) [] in
      let parts := split_whitespace request_line in
      if Nat.ltb (length parts) 2 then
        response <- lift (create_response 400 (u "Bad Request")
                                          (Bytes []) (u "text/html") None) ;;
        sendall response
      else
        let method := nth 0 parts [] in
        let raw_path := nth 1 parts [] in
        if negb (str_eqb method (u "GET")) then
          response <- lift (create_response 405 (u "Method Not Allowed")
                                            (Bytes []) (u "text/html") None) ;;
          sendall response
        else
          let path := Urllib.unquote raw_path in
          let path := if str_eqb path (u "/") then u "/index.html" else path in
          let file_path := OsPath.join (root_dir self) (lstrip N.eqb (u "/") path) in
          abs_path <- os_path_abspath file_path ;;
          if negb (startswith N.eqb abs_path (root_dir self)) then
            response <- lift (create_response 403 (u "Forbidden")
                                              (Bytes []) (u "text/html") None) ;;
            sendall response
          else
            is_dir <- os_path_isdir abs_path ;;
            if is_dir then
              response <-
                try_except
                  (items <- os_listdir abs_path ;;
                   let content := listing path items in
                   lift (create_response 200 (u "OK") (Str content) (u "text/html") None))
                  (fun e =>
                     lift (create_response 500 (u "Internal Server Error")
                                           (Str (u "<h1>读取目录失败</h1>"))
                                           (u "text/html") None)) ;;
              sendall response
            else
              is_file <- os_path_isfile abs_path ;;
              readable <- (if is_file then os_access_R_OK abs_path else ret false) ;;
              response <-
                (if readable then
                   content <- open_rb_read abs_path ;;
                   mime_type <- mimetypes_guess_type abs_path ;;
                   let mime_type := or_default mime_type (u "application/octet-stream") in
                   let extra_headers : dict := [] in
                   let extra_headers :=
                     if existsb (fun ext => endswith N.eqb abs_path ext) download_exts
                     then
                       let filename := OsPath.basename abs_path in
                       setitem extra_headers (u "Content-Disposition")
                               (u "attachment; filename=" ++ dquote ++ filename ++ dquote)
                     else extra_headers in
                   lift (create_response 200 (u "OK") (Bytes content) mime_type
                                         (Some extra_headers))
                 else
                   lift (create_response 404 (u "Not Found")
                                         (Bytes (b "<h1>404 Not Found</h1>"))
                                         (u "text/html") None)) ;;
              sendall response
  end.

Definition handle_client_except (e : exn) : M unit :=
  response <- lift (create_response 500 (u "Internal Server Error")
                      (Bytes (b "<h1>500 Internal Server Error</h1>"))
                      (u "text/html") None) ;;
  sendall response.

Definition handle_client (self : SimpleWebServer) : M unit :=
  try_finally (try_except (handle_client_try self) handle_client_except) close.

End Extended.

(** The words of the request line, as both handlers compute them:
    [request_data.split('\r\n')[0].split()]. *)
Definition request_parts (request_data : str) : list str :=
  split_whitespace (nth 0 (split N.eqb CRLF request_data) []).

(** The same world with another answer of [recv]. *)
Definition receiving (w : World) (r : result bytes) : World := {|
  sock_recv := r;
  sock_sendall := sock_sendall w;
  getcwd := getcwd w;
  isdir := isdir w;
  isfile := isfile w;
  access_R_OK := access_R_OK w;
  read_file := read_file w;
  listdir := listdir w;
  guess_type := guess_type w
|}.

(** The path a [GET] request resolves to, as the handlers compute it from
    the path of the request: [file_path] and its [abspath]. *)
Definition file_path_of (self : SimpleWebServer) (path : str) : str :=
  OsPath.join (root_dir self) (lstrip N.eqb (u "/") path).

Definition abs_path_of (self : SimpleWebServer) (w : World) (path : str) : str :=
  OsPath.abspath (getcwd w) (file_path_of self path).

(** The path of the request in each variant: the second word of the
    request line, unquoted in the extended variant only, with the default
    document in place of [/]. *)
Definition minimal_path (path : str) : str :=
  if str_eqb path (u "/") then u "/index.html" else path.

Definition extended_path (raw_path : str) : str :=
  minimal_path (Urllib.unquote raw_path).

(** Containment as the specification words it: the canonical path is the
    root or begins with the root followed by a separator, a component
    boundary and not a raw string prefix. *)
Definition within_root (root path : str) : bool :=
  str_eqb path root
  || startswith N.eqb path (if endswith N.eqb root OsPath.sep then root
                            else root ++ OsPath.sep).

(** What was handed to [sendall], call by call. *)
Fixpoint sent (tr : trace) : list bytes :=
  match tr with
  | [] => []
  | Sendall data _ :: tr' => data :: sent tr'
  | _ :: tr' => sent tr'
  end.

(** A stretch of a trace in which nothing is sent and the socket is not
    closed. *)
Definition quiet (tr : trace) : Prop :=
  sendall_calls tr = 0%nat /\ ~ In Close tr.

(** The handler did [before], in which nothing is sent, and then called
    [sendall(response)]: this is the response of the handler.  When the call
    returns, the handler closes the socket and returns, and nothing else
    was sent. *)
Definition responds_with (w : World) (before : trace) (response : bytes)
           (outcome : result unit * trace) : Prop :=
  exists result rest,
    outcome = (result, before ++ Sendall response (sock_sendall w 0) :: rest)
    /\ (sock_sendall w 0 = true -> result = Ok tt /\ rest = [Close]).

(** How the [try] block of a handler can end when something was received
    and the client takes what is sent: with one response sent last, or
    with an exception before anything was sent. *)
Inductive try_outcome : result unit * trace -> Prop :=
| Responded (before : trace) (response : bytes) :
    quiet before -> try_outcome (Ok tt, before ++ [Sendall response true])
| Failed (e : exn) (before : trace) :
    quiet before -> try_outcome (Raise e, before).

(** ** The responses without a variable part

    Both variants build them with the same arguments; [returned] takes what
    a call returned. *)

Definition returned (r : result bytes) : bytes :=
  match r with
  | Ok data => data
  | Raise _ => []
  end.

Module Responses.

Definition bad_request : bytes :=
  Eval vm_compute in
    returned (Minimal.create_response 400 (u "Bad Request") (Bytes []) (u "text/html")).

Definition method_not_allowed : bytes :=
  Eval vm_compute in
    returned (Minimal.create_response 405 (u "Method Not Allowed") (Bytes []) (u "text/html")).

Definition forbidden : bytes :=
  Eval vm_compute in
    returned (Minimal.create_response 403 (u "Forbidden") (Bytes []) (u "text/html")).

Definition not_found : bytes :=
  Eval vm_compute in
    returned (Minimal.create_response 404 (u "Not Found")
                (Bytes (b "<h1>404 Not Found</h1>")) (u "text/html")).

Definition internal_error : bytes :=
  Eval vm_compute in
    returned (Minimal.create_response 500 (u "Internal Server Error")
                (Bytes (b "<h1>500 Internal Server Error</h1>")) (u "text/html")).

(** The answer of the extended variant when a directory cannot be
    listed. *)
Definition listing_failed : bytes :=
  Eval vm_compute in
    returned (Extended.create_response 500 (u "Internal Server Error")
                (Str (u "<h1>读取目录失败</h1>")) (u "text/html") None).

End Responses.

(** ** The response as a client reads it

    These definitions belong to the statements, not to the server: the
    head of a message ends at the first empty line, its first line is the
    status line and each further line is a header [Name: value]. *)

Module Client.

Definition head_of (response : bytes) : bytes :=
  nth 0 (split Byte.eqb [x0d; x0a; x0d; x0a] response) [].

Definition body_of (response : bytes) : bytes :=
  skipn (length (head_of response) + 4) response.

Definition lines_of (response : bytes) : list str :=
  match utf8_decode Strict (head_of response) with
  | Some text => split N.eqb CRLF text
  | None => []
  end.

Definition digit (c : char) : option N :=
  if (0x30 <=? c) && (c <=? 0x39) then Some (c - 0x30) else None.

Fixpoint int_from (acc : N) (s : str) : option N :=
  match s with
  | [] => Some acc
  | c :: s' =>
      match digit c with
      | Some d => int_from (10 * acc + d) s'
      | None => None
      end
  end.

(** [int(s)] for a string of decimal digits *)
Definition int_of (s : str) : option N :=
  match s with
  | [] => None
  | _ => int_from 0 s
  end.

(** The status code: the second word of the status line. *)
Definition status_of (response : bytes) : option N :=
  match split_whitespace (nth 0 (lines_of response) []) with
  | _ :: code :: _ => int_of code
  | _ => None
  end.

Definition header_of_line (line : str) : str * str :=
  let pieces := split N.eqb (u ": ") line in
  (nth 0 pieces [], join_seq (u ": ") (tl pieces)).

Definition headers_of (response : bytes) : dict :=
  map header_of_line (tl (lines_of response)).

(** The value of the first header called [name]. *)
Definition header (name : str) (response : bytes) : option str :=
  option_map snd (find (fun kv => str_eqb (fst kv) name) (headers_of response)).

End Client.

(** ** The scenario of the specification *)

Module Scenario.

Definition self : SimpleWebServer := init (u "/") (u "0.0.0.0") 9000 (u "/srv/root").

Definition request (line : str) : bytes :=
  match utf8_encode (line ++ CRLF ++ u "Host: localhost" ++ CRLF ++ CRLF) with
  | Some d => d
  | None => []
  end.

(** [/srv/root] holds [index.html] and the directory [docs] with [a.txt];
    next to it lies [/srv/rootevil/secret.txt].  A path is looked up by its
    normal form (there are no symbolic links). *)
Definition world (data : bytes) : World := {|
  sock_recv := Ok data;
  sock_sendall := fun _ => true;
  getcwd := u "/";
  isdir := fun p =>
    existsb (str_eqb (OsPath.normpath p))
            [u "/"; u "/srv"; u "/srv/root"; u "/srv/root/docs"; u "/srv/rootevil"];
  isfile := fun p =>
    existsb (str_eqb (OsPath.normpath p))
            [u "/srv/root/index.html"; u "/srv/root/docs/a.txt";
             u "/srv/root/中文.txt"; u "/srv/rootevil/secret.txt"];
  access_R_OK := fun _ => true;
  read_file := fun p =>
    let q := OsPath.normpath p in
    if str_eqb q (u "/srv/root/index.html") then Ok (b "hi")
    else if str_eqb q (u "/srv/root/docs/a.txt") then Ok (b "a")
    else if str_eqb q (u "/srv/root/中文.txt") then Ok (b "zh")
    else if str_eqb q (u "/srv/rootevil/secret.txt") then Ok (b "secret")
    else Raise OSError;
  listdir := fun p =>
    let q := OsPath.normpath p in
    if str_eqb q (u "/srv/root") then Ok [u "index.html"; u "docs"; u "中文.txt"]
    else if str_eqb q (u "/srv/root/docs") then Ok [u "a.txt"]
    else Raise OSError;
  guess_type := fun p =>
    if endswith N.eqb p (u ".html") then Some (u "text/html")
    else if endswith N.eqb p (u ".txt") then Some (u "text/plain")
    else None
|}.

(** The status of every response handed to [sendall] while [handler]
    serves the request that begins with [line]. *)
Definition statuses (handler : SimpleWebServer -> M unit) (line : str) : list (option N) :=
  map Client.status_of (sent (snd (handler self (world (request line)) []))).

End Scenario.

(** ** The parts of [create_response]

    The dict of headers that a call fills and the head of the message as a
    reader takes it apart, for the statements about the two functions. *)

(** The dict literal that both variants start from. *)
Definition fixed_headers : dict :=
  [(u "Server", u "SimplePythonWebServer"); (u "Connection", u "close")].

(** The dict of [src/server.py] before it is formatted. *)
Definition minimal_headers (content : content) (content_type : str) : dict :=
  if truthy content
  then setitem (setitem fixed_headers (u "Content-Length") (str_of_int (len content)))
               (u "Content-Type") content_type
  else fixed_headers.

(** The dict of [src/临时.py] before it is formatted. *)
Definition extended_headers (content : content) (content_type : str)
           (extra_headers : option dict) : dict :=
  match extra_headers with
  | Some ((_ :: _) as extra) => update (minimal_headers content content_type) extra
  | _ => minimal_headers content content_type
  end.

(** [d.get(k)] *)
Definition getitem (d : dict) (k : str) : option str :=
  option_map snd (find (fun kv => str_eqb (fst kv) k) d).

(** The head of a message, line by line: the status line, one line
    [Name: value] for each header and an empty line, each ended by CRLF. *)
Definition message_head (status_code : N) (status_message : str) (headers : dict) : str :=
  u "HTTP/1.1 " ++ str_of_int status_code ++ u " " ++ status_message ++ CRLF
  ++ concat (map (fun kv => fst kv ++ u ": " ++ snd kv ++ CRLF) headers)
  ++ CRLF.

(** The bytes that follow the head: nothing for a content that is empty. *)
Definition message_body (c : content) : option bytes :=
  if truthy c then encoded_content c else Some [].

(** A message from its head and its body; a text that cannot be encoded
    makes [create_response] raise. *)
Definition message (head : option bytes) (body : option bytes) : result bytes :=
  match head, body with
  | Some h, Some d => Ok (h ++ d)
  | _, _ => Raise UnicodeEncodeError
  end.

(** ** Observations of a trace *)

(** The outcome of each call of [sendall], in order. *)
Fixpoint send_results (tr : trace) : list bool :=
  match tr with
  | [] => []
  | Sendall _ ok :: tr' => ok :: send_results tr'
  | _ :: tr' => send_results tr'
  end.

(** The handler raised, and then [OSError], if and only if its last call of
    [sendall] did. *)
Definition raises_with_its_last_send (outcome : result unit * trace) : Prop :=
  fst outcome = if last (send_results (snd outcome)) true then Ok tt else Raise OSError.

(** At most two calls of [sendall], the second after a first that raised
    and with [response]. *)
Definition retries_once_with (response : bytes) (tr : trace) : Prop :=
  match send_results tr, sent tr with
  | [], _ | [_], _ => True
  | [false; _], [_; second] => second = response
  | _, _ => False
  end.

(** The path of a call that consults the filesystem. *)
Definition fs_path (e : event) : option str :=
  match e with
  | Isdir p | Isfile p | Access p | OpenRead p | Listdir p => Some p
  | _ => None
  end.

(** The status lines of the two variants. *)
Definition status_lines : list bytes :=
  [b "HTTP/1.1 200 OK"; b "HTTP/1.1 400 Bad Request"; b "HTTP/1.1 403 Forbidden";
   b "HTTP/1.1 404 Not Found"; b "HTTP/1.1 405 Method Not Allowed";
   b "HTTP/1.1 500 Internal Server Error"].


(** ** Worlds for the statements about files *)

(** The world [w] with one more regular file: [path], in normal form, with
    what reading it gives and whether the process may read it. *)
Definition with_file (w : World) (path : str) (readable : bool) (data : result bytes)
  : World := {|
  sock_recv := sock_recv w;
  sock_sendall := sock_sendall w;
  getcwd := getcwd w;
  isdir := fun p => negb (str_eqb (OsPath.normpath p) path) && isdir w p;
  isfile := fun p => str_eqb (OsPath.normpath p) path || isfile w p;
  access_R_OK := fun p =>
    if str_eqb (OsPath.normpath p) path then readable else access_R_OK w p;
  read_file := fun p =>
    if str_eqb (OsPath.normpath p) path then data else read_file w p;
  listdir := listdir w;
  guess_type := guess_type w
|}.

(** The response to a [GET] for a file that is there and empty, in the
    minimal variant. *)
Definition ok_without_content : bytes :=
  Eval vm_compute in
    returned (Minimal.create_response 200 (u "OK") (Bytes []) (u "text/plain")).

(** The headers of the response to a [GET] for a file: the two fixed ones,
    the two of a content that is not empty, and the one that makes a
    browser save the file under [filename]. *)
Definition file_headers (data : bytes) (mime_type : str) (attachment : option str)
  : dict :=
  fixed_headers
  ++ match data with
     | [] => []
     | _ => [(u "Content-Length", str_of_int (N.of_nat (length data)));
             (u "Content-Type", mime_type)]
     end
  ++ match attachment with
     | Some filename =>
         [(u "Content-Disposition",
           u "attachment; filename=" ++ dquote ++ filename ++ dquote)]
     | None => []
     end.

(** ** [SimpleWebServer.start]

    The main thread binds the listening socket, listens and then accepts
    connections for ever, starting one thread for each.  The loop is run
    against the answers that [accept] gives, one for each call; when they
    are used up the thread is waiting in [accept].  The two variants have
    the same [start]. *)

(** What can end a call of the main thread from outside: Ctrl-C, which
    [except KeyboardInterrupt] catches, or an exception of another class. *)
Inductive interruption := KeyboardInterrupt | OtherException.

(** The answer to one call of [accept]: the socket of a client, or an
    exception. *)
Inductive accepted :=
| Connection (client_socket : nat)
| Interrupted (i : interruption).

(** What the main thread does, in order; [ThreadStart c] is the start of a
    thread whose target is [handle_client] and whose argument is [c]. *)
Inductive server_event :=
| Bind (address : str * N)
| Listen (backlog : N)
| Accept
| ThreadStart (client_socket : nat)
| ServerClose.

(** How far [start] has come: it returned, it raised, or it waits in
    [accept]. *)
Inductive ending := Returned | Propagated (i : interruption) | Waiting.

(** The [while True] loop; [thread.start()] is taken to return. *)
Fixpoint serve_forever (answers : list accepted) : list server_event * ending :=
  match answers with
  | [] => ([Accept], Waiting)
  | Interrupted i :: _ => ([Accept], Propagated i)
  | Connection client_socket :: answers' =>
      let (events, e) := serve_forever answers' in
      (Accept :: ThreadStart client_socket :: events, e)
  end.

(** [start(self)]; [bind] and [listen] are called outside the [try], so
    what they raise leaves [start] as it is. *)
Definition start (self : SimpleWebServer) (bind listen : option interruption)
           (answers : list accepted) : list server_event * ending :=
  match bind with
  | Some i => ([Bind (host self, port self)], Propagated i)
  | None =>
      match listen with
      | Some i => ([Bind (host self, port self); Listen 5], Propagated i)
      | None =>
          let (events, e) := serve_forever answers in
          let events := [Bind (host self, port self); Listen 5] ++ events in
          match e with
          | Propagated KeyboardInterrupt => (events ++ [ServerClose], Returned)
          | _ => (events, e)
          end
      end
  end.

(** The threads started, in order. *)
Fixpoint threads (events : list server_event) : list nat :=
  match events with
  | [] => []
  | ThreadStart client_socket :: events' => client_socket :: threads events'
  | _ :: events' => threads events'
  end.

(** The connections accepted before [accept] raises, and what it raises
    then. *)
Fixpoint connections (answers : list accepted) : list nat :=
  match answers with
  | Connection client_socket :: answers' => client_socket :: connections answers'
  | _ => []
  end.

Fixpoint first_interruption (answers : list accepted) : option interruption :=
  match answers with
  | [] => None
  | Interrupted i :: _ => Some i
  | Connection _ :: answers' => first_interruption answers'
  end.

(** * Theorems *)

(** ** The library functions on sample inputs

    The values on the right are what CPython returns for the same
    calls. *)

Example decode_strict_examples :
  utf8_decode Strict (b "中文") = Some [0x4E2D; 0x6587]
  /\ utf8_decode Strict [xed; xa0; x80] = None
  /\ utf8_decode Strict [xc0; x80] = None
  /\ utf8_decode Strict [xf4; x90; x80; x80] = None
  /\ utf8_decode Strict [xe4; xb8] = None.
Proof. repeat split. Qed.

Example decode_replace_examples :
  utf8_decode Replace [xe4; xb8] = Some [0xFFFD]
  /\ utf8_decode Replace [xf0; x90; x41] = Some [0xFFFD; 0x41]
  /\ utf8_decode Replace [xed; xa0; x80] = Some [0xFFFD; 0xFFFD; 0xFFFD]
  /\ utf8_decode Replace [xc0; x80] = Some [0xFFFD; 0xFFFD]
  /\ utf8_decode Replace [xe4; xb8; xad; xff] = Some [0x4E2D; 0xFFFD].
Proof. repeat split. Qed.

Example encode_examples :
  utf8_encode [0x4E2D; 0x41] = Some [xe4; xb8; xad; x41]
  /\ utf8_encode [0x10FFFF] = Some [xf4; x8f; xbf; xbf]
  /\ utf8_encode [0xD800] = None.
Proof. repeat split. Qed.

Example unquote_examples :
  Urllib.unquote (u "%%41") = u "%A"
  /\ Urllib.unquote (u "%zz%41") = u "%zzA"
  /\ Urllib.unquote (u "a%E4%B8%ADb") = u "a中b"
  /\ Urllib.unquote (u "%e4%b8%ad") = u "中"
  /\ Urllib.unquote (u "%E4%B8") = [0xFFFD]
  /\ Urllib.unquote (u "100%") = u "100%".
Proof. repeat split. Qed.

Example normpath_examples :
  OsPath.normpath (u "/srv/root/../rootevil/x") = u "/srv/rootevil/x"
  /\ OsPath.normpath (u "//a/../..") = u "//"
  /\ OsPath.normpath (u "///a/./b//c/") = u "/a/b/c"
  /\ OsPath.normpath (u "/srv/root/") = u "/srv/root"
  /\ OsPath.normpath (u "a/../..") = u ".."
  /\ OsPath.normpath (u "") = u ".".
Proof. repeat split. Qed.

Example join_examples :
  OsPath.join (u "/srv/root") (u "index.html") = u "/srv/root/index.html"
  /\ OsPath.join (u "/") (u "x") = u "/x"
  /\ OsPath.join (u "/docs/") (u "a.txt") = u "/docs/a.txt"
  /\ OsPath.join (u "docs") (u "/a") = u "/a"
  /\ OsPath.join (u "/srv/root") (u "") = u "/srv/root/".
Proof. repeat split. Qed.

(** The requests of the scenario of the specification and their status,
    in the extended and in the minimal variant. *)
Example scenario_statuses :
  map (Scenario.statuses Extended.handle_client)
      [u "GET / HTTP/1.1"; u "GET /docs/ HTTP/1.1"; u "GET /docs/a.txt HTTP/1.1";
       u "GET /../../etc/passwd HTTP/1.1"; u "POST /index.html HTTP/1.1";
       u "GET /missing.html HTTP/1.1"]
  = [[Some 200]; [Some 200]; [Some 200]; [Some 403]; [Some 405]; [Some 404]]
  /\ map (Scenario.statuses Minimal.handle_client)
        [u "GET / HTTP/1.1"; u "GET /docs/ HTTP/1.1"; u "GET /docs/a.txt HTTP/1.1";
         u "GET /../../etc/passwd HTTP/1.1"; u "POST /index.html HTTP/1.1";
         u "GET /missing.html HTTP/1.1"]
     = [[Some 200]; [Some 404]; [Some 200]; [Some 403]; [Some 405]; [Some 404]].
Proof. split; vm_compute; reflexivity. Qed.

Example str_examples :
  split_whitespace ([0x20; 0x61; 0x09; 0x62; 0x3000; 0x63; 0x1F; 0x64; 0x20])
  = [u "a"; u "b"; u "c"; u "d"]
  /\ split N.eqb CRLF (u "a" ++ CRLF ++ CRLF ++ u "b") = [u "a"; []; u "b"]
  /\ lstrip N.eqb (u "/") (u "//a/b") = u "a/b"
  /\ replace_all N.eqb (u "X") (u "/") (u "aXbXc") = u "a/b/c"
  /\ str_of_int 1024 = u "1024"
  /\ str_of_int 0 = u "0".
Proof. repeat split. Qed.

Ltac Zify.zify_post_hook ::= Z.to_euclidean_division_equations.

(** ** The UTF-8 codec *)

Lemma to_N_byte_of_N (n : N) : n < 256 -> Byte.to_N (byte_of_N n) = n.
Proof.
  intros H. unfold byte_of_N.
  destruct (Byte.of_N n) as [x|] eqn:E.
  - now apply Byte.to_of_N.
  - apply Byte.of_N_None_iff in E. lia.
Qed.

Lemma to_N_bound (x : byte) : Byte.to_N x < 256.
Proof. pose proof (Byte.to_N_bounded x). lia. Qed.

Lemma Some_inj {A} (x y : A) : Some x = Some y -> x = y.
Proof. congruence. Qed.

(** Comparisons that the context decides. *)
Ltac decide_comparisons :=
  repeat match goal with
    | |- context [?x <? ?y] =>
        first [ replace (x <? y) with true by (symmetry; apply N.ltb_lt; lia)
              | replace (x <? y) with false by (symmetry; apply N.ltb_ge; lia) ]
    | |- context [?x <=? ?y] =>
        first [ replace (x <=? y) with true by (symmetry; apply N.leb_le; lia)
              | replace (x <=? y) with false by (symmetry; apply N.leb_gt; lia) ]
    | |- context [?x =? ?y] =>
        first [ replace (x =? y) with true by (symmetry; apply N.eqb_eq; lia)
              | replace (x =? y) with false by (symmetry; apply N.eqb_neq; lia) ]
    end;
  cbn [negb andb orb].

Ltac comparisons_to_props :=
  repeat match goal with
    | H : (_ <? _) = true |- _ => apply N.ltb_lt in H
    | H : (_ <? _) = false |- _ => apply N.ltb_ge in H
    | H : (_ <=? _) = true |- _ => apply N.leb_le in H
    | H : (_ <=? _) = false |- _ => apply N.leb_gt in H
    | H : (_ =? _) = true |- _ => apply N.eqb_eq in H
    | H : (_ =? _) = false |- _ => apply N.eqb_neq in H
    end.

Ltac split_comparisons :=
  repeat match goal with
    | |- context [?x <? ?y] => destruct (N.ltb_spec x y)
    | |- context [?x <=? ?y] => destruct (N.leb_spec x y)
    | |- context [?x =? ?y] => destruct (N.eqb_spec x y)
    end;
  cbn [negb andb orb].

(** One step of the decoder on an encoded character: the first byte and
    the rest of the input are kept as they are while the step unfolds. *)
Ltac decode_step :=
  match goal with
  | |- context [utf8_decode ?h (?x :: ?t)] =>
      let x' := fresh "x" in
      let t' := fresh "t" in
      remember x as x' in |- *; remember t as t' in |- *;
      cbn [utf8_decode]; subst x';
      rewrite ?to_N_byte_of_N by lia; decide_comparisons;
      subst t'; cbv beta iota zeta; unfold is_continuation;
      rewrite ?to_N_byte_of_N by lia; decide_comparisons
  end.

Lemma utf8_decode_encode_char (c : char) (enc : bytes) :
  utf8_encode_char c = Some enc ->
  forall h rest, utf8_decode h (enc ++ rest) = emit c (utf8_decode h rest).
Proof.
  unfold utf8_encode_char, is_scalar. intros H h rest.
  destruct (c <? 0x80) eqn:C1; [|destruct (c <? 0x800) eqn:C2;
    [|destruct (c <? 0x10000) eqn:C3; [|destruct (c <? 0x110000) eqn:C4]]];
    comparisons_to_props.
  - apply Some_inj in H; subst enc. cbv beta iota delta [app]. decode_step.
    reflexivity.
  - apply Some_inj in H; subst enc. cbv beta iota delta [app]. decode_step.
    f_equal. lia.
  - destruct ((c <? 55296) || (57344 <=? c) && (c <? 1114112)) eqn:S; [|discriminate].
    apply Some_inj in H; subst enc. cbv beta iota delta [app].
    apply orb_true_iff in S. rewrite andb_true_iff in S.
    assert (c < 55296 \/ 57344 <= c) as S'
        by (destruct S as [S|[S _]]; comparisons_to_props; lia).
    clear S. decode_step.
    split_comparisons; [exfalso; lia | exfalso; lia | f_equal; lia ..].
  - apply Some_inj in H; subst enc. cbv beta iota delta [app]. decode_step.
    split_comparisons; try (exfalso; lia); f_equal; lia.
  - discriminate.
Qed.

Lemma utf8_encode_cons (c : char) (s : str) (enc : bytes) :
  utf8_encode (c :: s) = Some enc ->
  exists e1 e2, utf8_encode_char c = Some e1 /\ utf8_encode s = Some e2 /\ enc = e1 ++ e2.
Proof.
  cbn [utf8_encode]. destruct (utf8_encode_char c) as [e1|]; [|discriminate].
  destruct (utf8_encode s) as [e2|]; [|discriminate].
  intros [= <-]. now exists e1, e2.
Qed.

(** What [str.encode('utf-8')] produced decodes to the string it came from,
    under either error handler. *)
Lemma utf8_decode_encode (h : error_handler) (s : str) :
  forall enc, utf8_encode s = Some enc -> utf8_decode h enc = Some s.
Proof.
  induction s as [|c s IH]; intros enc H.
  - injection H as <-. reflexivity.
  - apply utf8_encode_cons in H as (e1 & e2 & H1 & H2 & ->).
    rewrite (utf8_decode_encode_char _ _ H1). now rewrite (IH _ H2).
Qed.

Lemma utf8_encode_app (s t : str) :
  utf8_encode (s ++ t)
  = match utf8_encode s, utf8_encode t with
    | Some e1, Some e2 => Some (e1 ++ e2)
    | _, _ => None
    end.
Proof.
  induction s as [|c s IH]; cbn [app utf8_encode].
  - now destruct (utf8_encode t).
  - rewrite IH. destruct (utf8_encode_char c) as [e|]; [|reflexivity].
    destruct (utf8_encode s), (utf8_encode t); try reflexivity.
    now rewrite app_assoc.
Qed.

Lemma encodable_encode (s : str) : encodable s -> exists enc, utf8_encode s = Some enc.
Proof.
  induction 1 as [|c s Hc _ [enc IH]].
  - now exists [].
  - cbn [utf8_encode]. rewrite IH. unfold utf8_encode_char. rewrite Hc.
    unfold is_scalar in Hc.
    destruct (c <? 128); [eauto|]. destruct (c <? 2048); [eauto|].
    destruct (c <? 65536) eqn:E1; [eauto|]. destruct (c <? 1114112) eqn:E2; [eauto|].
    exfalso. comparisons_to_props. revert Hc.
    split_comparisons; try discriminate; lia.
Qed.

Lemma encode_encodable (s : str) (enc : bytes) : utf8_encode s = Some enc -> encodable s.
Proof.
  revert enc. induction s as [|c s IH]; intros enc H; [constructor|].
  apply utf8_encode_cons in H as (e1 & e2 & H1 & H2 & _).
  constructor; [|now apply IH with e2].
  revert H1. unfold utf8_encode_char, is_scalar.
  split_comparisons; intros ?; try reflexivity; try discriminate; lia.
Qed.

Lemma encodable_app (s t : str) : encodable (s ++ t) <-> encodable s /\ encodable t.
Proof. apply Forall_app. Qed.

(** One step of the decoder in a hypothesis: the test at its head is
    decided both ways. *)
Ltac step_decoder H :=
  lazymatch type of H with
  | (if ?c then _ else _) = _ =>
      first [ match c with context [?x <? ?y] => destruct (N.ltb_spec x y) end
            | match c with context [?x <=? ?y] => destruct (N.leb_spec x y) end
            | match c with context [?x =? ?y] => destruct (N.eqb_spec x y) end ];
      cbn [negb andb orb] in H
  | match ?t with [] => _ | _ :: _ => _ end = _ => destruct t
  end.

Lemma on_error_inv (h : error_handler) (k : option str) (s : str) :
  on_error h k = Some s -> exists s', k = Some s' /\ s = 0xFFFD :: s'.
Proof.
  destruct h; [discriminate|]. destruct k as [s'|]; [|discriminate].
  intros [= <-]. now exists s'.
Qed.

Lemma emit_inv (c : char) (k : option str) (s : str) :
  emit c k = Some s -> exists s', k = Some s' /\ s = c :: s'.
Proof.
  destruct k as [s'|]; [|discriminate]. intros [= <-]. now exists s'.
Qed.

(** Whatever the decoder returns can be encoded again: it holds scalar
    values only. *)
Lemma utf8_decode_encodable (h : error_handler) :
  forall (n : nat) (data : bytes) (s : str),
    (length data <= n)%nat -> utf8_decode h data = Some s -> encodable s.
Proof.
  induction n as [|n IH]; intros data s L H.
  - destruct data; [|cbn in L; lia]. apply Some_inj in H. subst. constructor.
  - destruct data as [|b1 t1]; [apply Some_inj in H; subst; constructor|].
    cbn [length] in L.
    pose proof (to_N_bound b1).
    cbn [utf8_decode] in H. unfold is_continuation in H.
    repeat step_decoder H;
      cbn [length] in L;
      repeat match goal with x : byte |- _ => pose proof (to_N_bound x); revert x end;
      intros;
      first [ apply on_error_inv in H as (s' & H & ->)
            | apply emit_inv in H as (s' & H & ->) ];
      (constructor;
       [ unfold is_scalar; split_comparisons; try reflexivity; exfalso; lia
       | first [ apply Some_inj in H; subst; constructor
               | eapply IH; [|exact H]; cbn [length]; lia ] ]).
Qed.

(** ** Unquoting what was quoted *)

Section Quoted.
Import Urllib.
Variable safe : byte -> bool.
Hypothesis safe_is_plain :
  forall x, safe x = true -> Byte.to_N x < 0x80 /\ Byte.to_N x <> 0x25.

Lemma digits_of_byte (x : byte) :
  Urllib.unquote_item [hi x; lo x] = [x]
  /\ Byte.eqb (hi x) x25 = false /\ Byte.eqb (lo x) x25 = false
  /\ utf8_encode [0x25; Urllib.hex_digit (Byte.to_N x / 16);
                  Urllib.hex_digit (Byte.to_N x mod 16)]
     = Some [x25; hi x; lo x].
Proof. destruct x; vm_compute; repeat split. Qed.

Lemma unquote_item_digits (x : byte) (rest : bytes) :
  Urllib.unquote_item (hi x :: lo x :: rest) = x :: rest.
Proof.
  destruct (digits_of_byte x) as (H & _). revert H.
  unfold Urllib.unquote_item.
  destruct (Urllib.hexdig (hi x)) as [d1|], (Urllib.hexdig (lo x)) as [d0|];
    try discriminate.
  intros H. assert (byte_of_N (16 * d1 + d0) = x) as -> by congruence.
  reflexivity.
Qed.

Lemma utf8_encode_plain (x : byte) :
  Byte.to_N x < 0x80 -> utf8_encode_char (Byte.to_N x) = Some [x].
Proof.
  intros H. unfold utf8_encode_char.
  replace (Byte.to_N x <? 128) with true by (symmetry; now apply N.ltb_lt).
  unfold byte_of_N. now rewrite Byte.of_to_N.
Qed.

Lemma utf8_encode_quote (data : bytes) :
  utf8_encode (Urllib.quote safe data) = Some (flat_map (quoted_byte safe) data).
Proof.
  induction data as [|x data IH]; [reflexivity|].
  unfold Urllib.quote in *. cbn [flat_map]. rewrite utf8_encode_app, IH.
  unfold Urllib.quote_byte, Urllib.quoted_byte. destruct (safe x) eqn:S.
  - apply safe_is_plain in S as [S _]. cbn [utf8_encode].
    now rewrite (utf8_encode_plain _ S).
  - destruct (digits_of_byte x) as (_ & _ & _ & ->). reflexivity.
Qed.

Lemma split_quoted (data : bytes) :
  forall cur,
    split_from Byte.eqb [x25] 0 cur (flat_map (quoted_byte safe) data) = pieces safe cur data.
Proof.
  induction data as [|x data IH]; intros cur; [reflexivity|].
  cbn [flat_map Urllib.pieces]. unfold Urllib.quoted_byte at 1. destruct (safe x) eqn:S.
  - cbn [app split_from startswith].
    replace (Byte.eqb x x25) with false; [cbn [andb]; apply IH|].
    symmetry. apply safe_is_plain in S as [_ S].
    destruct (Byte.eqb x x25) eqn:E; [|reflexivity].
    apply Byte.byte_dec_bl in E. now subst x.
  - destruct (digits_of_byte x) as (_ & Hh & Hl & _).
    cbn [app split_from startswith length Nat.sub].
    change (Byte.eqb x25 x25) with true. cbn [andb].
    rewrite Hh, Hl. cbn [andb]. now rewrite IH.
Qed.

Lemma unquote_item_pieces (data : bytes) :
  forall x lits,
    flat_map Urllib.unquote_item (pieces safe (lits ++ [lo x; hi x]) data)
    = x :: rev lits ++ data.
Proof.
  induction data as [|y data IH]; intros x lits; cbn [Urllib.pieces flat_map].
  - rewrite rev_app_distr. cbn [rev app]. rewrite unquote_item_digits.
    now rewrite !app_nil_r.
  - destruct (safe y).
    + rewrite app_comm_cons, IH. cbn [rev]. now rewrite <- app_assoc.
    + cbn [flat_map]. rewrite rev_app_distr. cbn [rev app].
      rewrite unquote_item_digits.
      change [lo y; hi y] with ([] ++ [lo y; hi y]). rewrite IH. cbn [rev app].
      reflexivity.
Qed.

Lemma unquote_pieces (data : bytes) :
  forall cur,
    match pieces safe cur data with
    | [] => []
    | first :: items => first ++ flat_map Urllib.unquote_item items
    end = rev cur ++ data.
Proof.
  induction data as [|y data IH]; intros cur; cbn [Urllib.pieces].
  - cbn [flat_map]. reflexivity.
  - destruct (safe y).
    + rewrite IH. cbn [rev]. now rewrite <- app_assoc.
    + change [lo y; hi y] with ([] ++ [lo y; hi y]).
      now rewrite unquote_item_pieces.
Qed.

Lemma unquote_to_bytes_quote (data : bytes) :
  Urllib.unquote_to_bytes (Urllib.quote safe data) = data.
Proof.
  unfold Urllib.unquote_to_bytes. rewrite utf8_encode_quote.
  unfold split. change (b "%") with [x25]. rewrite split_quoted.
  pose proof (unquote_pieces data []) as H. cbn [rev app] in H.
  destruct (pieces safe [] data) as [|first items] eqn:E; [|exact H].
  destruct data as [|y data]; [reflexivity|].
  cbn [Urllib.pieces] in E. destruct (safe y); [|discriminate E].
  clear H. exfalso. revert E. generalize [y]. clear.
  induction data as [|z data IH]; intros cur; cbn [Urllib.pieces]; [discriminate|].
  destruct (safe z); [apply IH|discriminate].
Qed.

Lemma quote_is_ascii (data : bytes) :
  Forall (fun c => c < 0x80) (Urllib.quote safe data).
Proof.
  unfold Urllib.quote. induction data as [|x data IH]; [constructor|].
  cbn [flat_map]. apply Forall_app. split; [|exact IH].
  unfold Urllib.quote_byte. destruct (safe x) eqn:S.
  - apply safe_is_plain in S as [S _]. now repeat constructor.
  - pose proof (to_N_bound x).
    repeat constructor; unfold Urllib.hex_digit; try lia;
      split_comparisons; lia.
Qed.

Lemma unquote_from_ascii (string : str) :
  Forall (fun c => c < 0x80) string ->
  forall run, Urllib.unquote_from run string = Urllib.unquote_run (rev run ++ string).
Proof.
  induction 1 as [|c string Hc _ IH]; intros run; cbn [Urllib.unquote_from].
  - now rewrite app_nil_r.
  - replace (c <? 128) with true by (symmetry; now apply N.ltb_lt).
    rewrite IH. cbn [rev]. now rewrite <- app_assoc.
Qed.

(** A path that was encoded as UTF-8 and then quoted comes back from
    [unquote] as it was. *)
Lemma unquote_quote (path : str) (enc : bytes) :
  utf8_encode path = Some enc ->
  Urllib.unquote (Urllib.quote safe enc) = path.
Proof.
  intros H. unfold Urllib.unquote.
  assert (Hrun : Urllib.unquote_run (Urllib.quote safe enc) = path).
  { unfold Urllib.unquote_run. rewrite unquote_to_bytes_quote.
    now rewrite (utf8_decode_encode Replace _ _ H). }
  destruct (negb (contains N.eqb 37 (Urllib.quote safe enc))) eqn:C.
  - (* no '%': every byte was safe and the quoted string is the path *)
    rewrite <- Hrun. unfold Urllib.unquote_run, Urllib.unquote_to_bytes.
    rewrite utf8_encode_quote.
    assert (Hq : flat_map (quoted_byte safe) enc = enc
                 /\ Urllib.quote safe enc = map Byte.to_N enc
                 /\ Forall (fun x => Byte.to_N x < 0x80) enc).
    { clear H Hrun. unfold Urllib.quote in *.
      induction enc as [|x enc IH]; [repeat split; constructor|].
      cbn [flat_map] in *. unfold Urllib.quote_byte, Urllib.quoted_byte in *.
      destruct (safe x) eqn:S.
      - cbn [app contains existsb] in C. unfold contains in IH.
        apply negb_true_iff, orb_false_iff in C as [_ C].
        rewrite C in IH. destruct (IH eq_refl) as (I1 & I2 & I3).
        cbn [app map]. rewrite I1, I2. repeat split.
        constructor; [now apply safe_is_plain|exact I3].
      - cbn [app contains existsb] in C. discriminate C. }
    destruct Hq as (Hq1 & Hq2 & Hq3). rewrite Hq1, Hq2.
    assert (Hs : split Byte.eqb (b "%") enc = [enc]).
    { rewrite <- Hq1 at 1. unfold split. change (b "%") with [x25].
      rewrite split_quoted.
      assert (forall cur, (forall x, In x enc -> safe x = true) ->
                          pieces safe cur enc = [rev cur ++ enc]) as Hp.
      { clear. induction enc as [|x enc IH]; intros cur Hall; cbn [Urllib.pieces].
        - now rewrite app_nil_r.
        - rewrite (Hall x (or_introl eq_refl)).
          rewrite IH by (intros y Hy; apply Hall; now right).
          cbn [rev]. now rewrite <- app_assoc. }
      apply (Hp []). intros x Hx.
      destruct (safe x) eqn:S; [reflexivity|exfalso].
      apply in_split in Hx as (l1 & l2 & ->).
      unfold Urllib.quote in C. rewrite flat_map_app in C. cbn [flat_map] in C.
      unfold Urllib.quote_byte at 2 in C. rewrite S in C.
      unfold contains in C. rewrite existsb_app in C. cbn [app existsb] in C.
      rewrite N.eqb_refl in C. cbn [orb] in C.
      now rewrite orb_true_r in C. }
    rewrite Hs. cbn [flat_map]. rewrite app_nil_r.
    assert (Hd : utf8_decode Replace enc = Some (map Byte.to_N enc)).
    { clear - Hq3. induction Hq3 as [|x enc Hx _ IH]; [reflexivity|].
      cbn [utf8_decode map].
      replace (Byte.to_N x <? 128) with true by (symmetry; now apply N.ltb_lt).
      now rewrite IH. }
    now rewrite Hd.
  - rewrite (unquote_from_ascii _ (quote_is_ascii enc)). exact Hrun.
Qed.
End Quoted.

(** ** Running the handler monad *)

Ltac run :=
  cbv beta iota zeta delta
      [bind ret lift recv sendall close try_except try_finally
       os_path_abspath os_path_isdir os_path_isfile os_access_R_OK
       open_rb_read os_listdir mimetypes_guess_type];
  cbn [app sendall_calls].

Ltac enter_minimal :=
  unfold Minimal.handle_client, Minimal.handle_client_try,
    Minimal.handle_client_except, decode; run.

Ltac enter_extended :=
  unfold Extended.handle_client, Extended.handle_client_try,
    Extended.handle_client_except, decode; run.

Ltac world_fields :=
  cbn [receiving sock_recv sock_sendall getcwd isdir isfile access_R_OK
       read_file listdir guess_type].

(** ** Equality of strings *)

Lemma seq_eqb_N_true (s t : str) : str_eqb s t = true <-> s = t.
Proof.
  unfold str_eqb. revert t.
  induction s as [|a s IH]; intros [|c t]; cbn; split; try easy.
  - intros [Hac Hst]%andb_true_iff. apply N.eqb_eq in Hac. apply IH in Hst.
    now subst.
  - intros [= -> ->]. rewrite N.eqb_refl. cbn. now apply IH.
Qed.

Lemma str_eqb_neq (s t : str) : s <> t -> str_eqb s t = false.
Proof.
  intros H. destruct (str_eqb s t) eqn:E; [|reflexivity].
  now apply seq_eqb_N_true in E.
Qed.

Lemma startswith_app (s p q : str) :
  startswith N.eqb s (p ++ q) = true -> startswith N.eqb s p = true.
Proof.
  revert s. induction p as [|c p IH]; intros s H; [now destruct s|].
  destruct s as [|a s]; [discriminate H|].
  cbn [app startswith] in *. apply andb_true_iff in H as [-> H].
  now apply IH.
Qed.

Lemma startswith_refl (s : str) : startswith N.eqb s s = true.
Proof.
  induction s as [|a s IH]; [reflexivity|].
  cbn [startswith]. now rewrite N.eqb_refl.
Qed.

(** A path inside the root at a component boundary begins with the
    characters of the root: the test of the handlers lets it through. *)
Lemma within_root_startswith (root path : str) :
  within_root root path = true -> startswith N.eqb path root = true.
Proof.
  unfold within_root. intros [H|H]%orb_true_iff.
  - apply seq_eqb_N_true in H. subst. apply startswith_refl.
  - destruct (endswith N.eqb root OsPath.sep); [exact H|].
    now apply startswith_app in H.
Qed.

(** ** The fixed responses *)

Module ResponseFacts.

Lemma minimal_400 :
  Minimal.create_response 400 (u "Bad Request") (Bytes []) (u "text/html")
  = Ok Responses.bad_request.
Proof. vm_compute. reflexivity. Qed.

Lemma extended_400 :
  Extended.create_response 400 (u "Bad Request") (Bytes []) (u "text/html") None
  = Ok Responses.bad_request.
Proof. vm_compute. reflexivity. Qed.

Lemma minimal_405 :
  Minimal.create_response 405 (u "Method Not Allowed") (Bytes []) (u "text/html")
  = Ok Responses.method_not_allowed.
Proof. vm_compute. reflexivity. Qed.

Lemma extended_405 :
  Extended.create_response 405 (u "Method Not Allowed") (Bytes []) (u "text/html") None
  = Ok Responses.method_not_allowed.
Proof. vm_compute. reflexivity. Qed.

Lemma minimal_403 :
  Minimal.create_response 403 (u "Forbidden") (Bytes []) (u "text/html")
  = Ok Responses.forbidden.
Proof. vm_compute. reflexivity. Qed.

Lemma extended_403 :
  Extended.create_response 403 (u "Forbidden") (Bytes []) (u "text/html") None
  = Ok Responses.forbidden.
Proof. vm_compute. reflexivity. Qed.

Lemma minimal_404 :
  Minimal.create_response 404 (u "Not Found")
    (Bytes (b "<h1>404 Not Found</h1>")) (u "text/html")
  = Ok Responses.not_found.
Proof. vm_compute. reflexivity. Qed.

Lemma extended_404 :
  Extended.create_response 404 (u "Not Found")
    (Bytes (b "<h1>404 Not Found</h1>")) (u "text/html") None
  = Ok Responses.not_found.
Proof. vm_compute. reflexivity. Qed.

Lemma minimal_500 :
  Minimal.create_response 500 (u "Internal Server Error")
    (Bytes (b "<h1>500 Internal Server Error</h1>")) (u "text/html")
  = Ok Responses.internal_error.
Proof. vm_compute. reflexivity. Qed.

Lemma extended_500 :
  Extended.create_response 500 (u "Internal Server Error")
    (Bytes (b "<h1>500 Internal Server Error</h1>")) (u "text/html") None
  = Ok Responses.internal_error.
Proof. vm_compute. reflexivity. Qed.

Lemma extended_listing_failed :
  Extended.create_response 500 (u "Internal Server Error")
    (Str (u "<h1>读取目录失败</h1>")) (u "text/html") None
  = Ok Responses.listing_failed.
Proof. vm_compute. reflexivity. Qed.

(** The status of each, as a client reads it. *)
Lemma statuses :
  Client.status_of Responses.bad_request = Some 400
  /\ Client.status_of Responses.method_not_allowed = Some 405
  /\ Client.status_of Responses.forbidden = Some 403
  /\ Client.status_of Responses.not_found = Some 404
  /\ Client.status_of Responses.internal_error = Some 500
  /\ Client.status_of Responses.listing_failed = Some 500.
Proof. vm_compute. repeat split. Qed.

End ResponseFacts.

Ltac fixed_responses :=
  rewrite ?ResponseFacts.minimal_400, ?ResponseFacts.extended_400,
    ?ResponseFacts.minimal_405, ?ResponseFacts.extended_405,
    ?ResponseFacts.minimal_403, ?ResponseFacts.extended_403,
    ?ResponseFacts.minimal_404, ?ResponseFacts.extended_404,
    ?ResponseFacts.minimal_500, ?ResponseFacts.extended_500,
    ?ResponseFacts.extended_listing_failed.

(** The handler is about to call [sendall] for the first time: follow it
    when the call returns and when it raises. *)
Ltac first_send w :=
  unfold responds_with; run; fixed_responses; run;
  destruct (sock_sendall w 0) eqn:?; run; fixed_responses; run;
  [|destruct (sock_sendall w 1)];
  eexists; eexists;
  (split; [reflexivity|intros ?; first [discriminate|split; reflexivity]]).

(** The next call whose answer the handler waits for, answered both
    ways. *)
Ltac next_call :=
  match goal with
  | |- context [sock_recv ?w] => destruct (sock_recv w) eqn:?
  | |- context [isdir ?w ?p] => destruct (isdir w p) eqn:?
  | |- context [isfile ?w ?p] => destruct (isfile w p) eqn:?
  | |- context [access_R_OK ?w ?p] => destruct (access_R_OK w p) eqn:?
  | |- context [read_file ?w ?p] => destruct (read_file w p) eqn:?
  | |- context [listdir ?w ?p] => destruct (listdir w p) eqn:?
  | |- context [Minimal.create_response ?a ?m ?c ?t] =>
      destruct (Minimal.create_response a m c t) eqn:?
  | |- context [Extended.create_response ?a ?m ?c ?t ?x] =>
      destruct (Extended.create_response a m c t x) eqn:?
  | |- context [sock_sendall ?w ?n] => destruct (sock_sendall w n) eqn:?
  end.

Ltac all_calls := repeat first [progress (run; fixed_responses) | next_call].

(** Both sides run the same program: follow it branch by branch. *)
Ltac same_branches :=
  repeat first
    [ reflexivity
    | progress (run; world_fields)
    | match goal with
      | |- context [if ?c then _ else _] => destruct c
      | |- context [match ?c with _ => _ end] => destruct c
      end ].

(** The handler has read a request line with at least two words: step to
    the test of the method. *)
Ltac read_request received decoded parts request_data :=
  rewrite received, decoded;
  unfold request_parts in parts;
  destruct request_data as [|? ?]; [discriminate parts|];
  rewrite parts; cbn [length Nat.ltb Nat.leb nth].

Ltac method_is_get :=
  change (str_eqb (u "GET") (u "GET")) with true; cbn [negb].

(** ** The serialized response *)

Lemma u_encodable (lit : string) : encodable (u lit).
Proof.
  unfold u. destruct (utf8_decode Strict (b lit)) as [s|] eqn:E; [|constructor].
  now apply (utf8_decode_encodable Strict (length (b lit)) (b lit)).
Qed.

Lemma str_of_int_encodable (n : N) : encodable (str_of_int n).
Proof. apply u_encodable. Qed.

Lemma CRLF_encodable : encodable CRLF.
Proof. now repeat constructor. Qed.

Create HintDb encodable.
#[local] Hint Resolve u_encodable str_of_int_encodable CRLF_encodable : encodable.

Ltac encodable_parts :=
  repeat (apply encodable_app; split); auto with encodable.

(** What [create_response] returns for a content that is there: the head
    carries [len(content)], the bytes of a [bytes] and the characters of a
    [str], and the body is the content as bytes. *)
Section Serialized.
Variable status_code : N.
Variables status_message content_type : str.
Variable content : content.
Variable body : bytes.
Hypothesis some_content : truthy content = true.
Hypothesis content_bytes : encoded_content content = Some body.
Hypothesis message_encodable : encodable status_message.
Hypothesis type_encodable : encodable content_type.

Let response_line :=
  u "HTTP/1.1 " ++ str_of_int status_code ++ u " " ++ status_message ++ CRLF.
Let headers_str :=
  u "Server: SimplePythonWebServer" ++ CRLF
  ++ u "Connection: close" ++ CRLF
  ++ u "Content-Length: " ++ str_of_int (len content) ++ CRLF
  ++ u "Content-Type: " ++ content_type ++ CRLF ++ CRLF.

Lemma head_encodes :
  exists l h,
    utf8_encode response_line = Some l /\ utf8_encode headers_str = Some h
    /\ utf8_encode (response_line ++ headers_str) = Some (l ++ h).
Proof.
  destruct (encodable_encode response_line) as [l Hl];
    [unfold response_line; encodable_parts|].
  destruct (encodable_encode headers_str) as [h Hh];
    [unfold headers_str; encodable_parts|].
  exists l, h. repeat split; try assumption.
  now rewrite utf8_encode_app, Hl, Hh.
Qed.

(** The two headers of a content are set after the two fixed ones. *)
Ltac headers_with_content :=
  match goal with
  | |- context [setitem (setitem [?a; ?c] ?k1 ?v1) ?k2 ?v2] =>
      change (setitem (setitem [a; c] k1 v1) k2 v2) with [a; c; (k1, v1); (k2, v2)]
  end;
  cbn [map join_seq fst snd]; rewrite <- !app_assoc.

Lemma minimal_create_response_content :
  exists head,
    utf8_encode (response_line ++ headers_str) = Some head
    /\ Minimal.create_response status_code status_message content content_type
       = Ok (head ++ body).
Proof.
  destruct head_encodes as (l & h & Hl & Hh & Hhead).
  exists (l ++ h). split; [exact Hhead|].
  unfold Minimal.create_response, encode.
  rewrite some_content. fold response_line. rewrite Hl.
  headers_with_content.
  change (utf8_encode _) with (utf8_encode headers_str) at 1.
  rewrite Hh. unfold encoded_content in content_bytes.
  destruct content as [d|t].
  - apply Some_inj in content_bytes. subst. now rewrite app_assoc.
  - rewrite content_bytes. now rewrite app_assoc.
Qed.

Lemma extended_create_response_content :
  exists head,
    utf8_encode (response_line ++ headers_str) = Some head
    /\ Extended.create_response status_code status_message content content_type None
       = Ok (head ++ body).
Proof.
  destruct head_encodes as (l & h & Hl & Hh & Hhead).
  exists (l ++ h). split; [exact Hhead|].
  unfold Extended.create_response, encode.
  rewrite some_content. fold response_line. rewrite Hl.
  headers_with_content.
  change (utf8_encode _) with (utf8_encode headers_str) at 1.
  rewrite Hh. unfold encoded_content in content_bytes.
  destruct content as [d|t].
  - apply Some_inj in content_bytes. subst. now rewrite app_assoc.
  - rewrite content_bytes. now rewrite app_assoc.
Qed.
End Serialized.

(** A content that is [bytes] is counted in bytes: the head of the
    response of either variant carries the length of the body. *)
Lemma bytes_content_length_is_body_length
      (status_code : N) (status_message content_type : str) (data : bytes) :
  data <> [] ->
  encodable status_message ->
  encodable content_type ->
  exists head,
    utf8_encode
      (u "HTTP/1.1 " ++ str_of_int status_code ++ u " " ++ status_message ++ CRLF
       ++ u "Server: SimplePythonWebServer" ++ CRLF
       ++ u "Connection: close" ++ CRLF
       ++ u "Content-Length: " ++ str_of_int (N.of_nat (length data)) ++ CRLF
       ++ u "Content-Type: " ++ content_type ++ CRLF ++ CRLF)
    = Some head
    /\ Minimal.create_response status_code status_message (Bytes data) content_type
       = Ok (head ++ data)
    /\ Extended.create_response status_code status_message (Bytes data) content_type None
       = Ok (head ++ data).
Proof.
  intros Hne Hm Ht.
  assert (Htruthy : truthy (Bytes data) = true) by (now destruct data).
  destruct (minimal_create_response_content
              status_code status_message content_type (Bytes data) data
              Htruthy eq_refl Hm Ht) as (head & Hh & Hmin).
  destruct (extended_create_response_content
              status_code status_message content_type (Bytes data) data
              Htruthy eq_refl Hm Ht) as (head' & Hh' & Hext).
  rewrite Hh in Hh'. apply Some_inj in Hh'. subst head'.
  exists head. repeat split; try assumption.
  rewrite <- Hh. f_equal. now rewrite <- !app_assoc.
Qed.

(** ** Nothing received *)

Section ZeroBytes.
Variable self : SimpleWebServer.
Variable w : World.
Hypothesis nothing_received : sock_recv w = Ok [].

Lemma minimal_zero_bytes :
  Minimal.handle_client self w [] = (Ok tt, [Recv 1024; Close]).
Proof. enter_minimal. rewrite nothing_received. reflexivity. Qed.

Lemma extended_zero_bytes :
  Extended.handle_client self w [] = (Ok tt, [Recv 1024; Close]).
Proof. enter_extended. rewrite nothing_received. reflexivity. Qed.
End ZeroBytes.

(** C9. When the first [recv] on an accepted connection returns zero bytes,
    the handler of either variant calls [sendall] not once and closes the
    client socket: its whole trace is the read followed by the close. *)
Theorem zero_bytes_no_response_and_close :
  forall (self : SimpleWebServer) (w : World),
    sock_recv w = Ok [] ->
    Minimal.handle_client self w [] = (Ok tt, [Recv 1024; Close])
    /\ Extended.handle_client self w [] = (Ok tt, [Recv 1024; Close]).
Proof.
  intros self w H. split.
  - now apply minimal_zero_bytes.
  - now apply extended_zero_bytes.
Qed.

Lemma zero_bytes_no_response_and_close_witness :
  Minimal.handle_client Scenario.self (Scenario.world []) [] = (Ok tt, [Recv 1024; Close])
  /\ Extended.handle_client Scenario.self (Scenario.world []) [] = (Ok tt, [Recv 1024; Close]).
Proof.
  apply (zero_bytes_no_response_and_close Scenario.self (Scenario.world [])).
  reflexivity.
Defined.

(** ** Received bytes that are not UTF-8 *)

Section NotUtf8.
Variable self : SimpleWebServer.
Variable w : World.
Variable data : bytes.
Hypothesis received : sock_recv w = Ok data.
Hypothesis ill_formed : utf8_decode Strict data = None.

Lemma minimal_not_utf8 :
  Minimal.handle_client self w []
  = (if sock_sendall w 0 then Ok tt else Raise OSError,
     [Recv 1024; Sendall Responses.internal_error (sock_sendall w 0); Close]).
Proof.
  enter_minimal. rewrite received, ill_formed. fixed_responses. run.
  destruct (sock_sendall w 0); reflexivity.
Qed.

Lemma extended_not_utf8 :
  Extended.handle_client self w []
  = (if sock_sendall w 0 then Ok tt else Raise OSError,
     [Recv 1024; Sendall Responses.internal_error (sock_sendall w 0); Close]).
Proof.
  enter_extended. rewrite received, ill_formed. fixed_responses. run.
  destruct (sock_sendall w 0); reflexivity.
Qed.
End NotUtf8.

(** C10. When the bytes received on an accepted connection are not valid
    UTF-8, the handler of either variant answers with the fixed
    internal-error response, whose status is 500 (not 400) and whose body is
    [<h1>500 Internal Server Error</h1>], and then closes the socket. *)
Theorem not_utf8_gives_500 :
  forall (self : SimpleWebServer) (w : World) (data : bytes),
    sock_recv w = Ok data ->
    utf8_decode Strict data = None ->
    Client.status_of Responses.internal_error = Some 500
    /\ Client.body_of Responses.internal_error = b "<h1>500 Internal Server Error</h1>"
    /\ Minimal.handle_client self w []
       = (if sock_sendall w 0 then Ok tt else Raise OSError,
          [Recv 1024; Sendall Responses.internal_error (sock_sendall w 0); Close])
    /\ Extended.handle_client self w []
       = (if sock_sendall w 0 then Ok tt else Raise OSError,
          [Recv 1024; Sendall Responses.internal_error (sock_sendall w 0); Close]).
Proof.
  intros self w data Hr Hd. split; [| split; [| split]].
  - apply ResponseFacts.statuses.
  - vm_compute. reflexivity.
  - now apply minimal_not_utf8 with (data := data).
  - now apply extended_not_utf8 with (data := data).
Qed.

Lemma not_utf8_gives_500_witness :
  utf8_decode Strict [xff] = None
  /\ Client.status_of Responses.internal_error = Some 500
  /\ Client.body_of Responses.internal_error = b "<h1>500 Internal Server Error</h1>"
  /\ Minimal.handle_client Scenario.self (Scenario.world [xff]) []
     = (Ok tt, [Recv 1024; Sendall Responses.internal_error true; Close])
  /\ Extended.handle_client Scenario.self (Scenario.world [xff]) []
     = (Ok tt, [Recv 1024; Sendall Responses.internal_error true; Close]).
Proof.
  split; [reflexivity|].
  apply (not_utf8_gives_500 Scenario.self (Scenario.world [xff]) [xff]);
    reflexivity.
Defined.

(** ** Requests that are refused before any path is looked at *)

Section Refused.
Variable self : SimpleWebServer.
Variable w : World.
Variable data : bytes.
Variable request_data : str.
Hypothesis received : sock_recv w = Ok data.
Hypothesis decoded : utf8_decode Strict data = Some request_data.

Section TooShort.
Hypothesis not_empty : request_data <> [].
Hypothesis too_short : (length (request_parts request_data) < 2)%nat.

Lemma minimal_too_short :
  responds_with w [Recv 1024] Responses.bad_request (Minimal.handle_client self w []).
Proof.
  enter_minimal. rewrite received, decoded.
  destruct request_data as [|c l]; [easy|].
  apply Nat.ltb_lt in too_short. unfold request_parts in too_short.
  rewrite too_short. fixed_responses. first_send w.
Qed.

Lemma extended_too_short :
  responds_with w [Recv 1024] Responses.bad_request (Extended.handle_client self w []).
Proof.
  enter_extended. rewrite received, decoded.
  destruct request_data as [|c l]; [easy|].
  apply Nat.ltb_lt in too_short. unfold request_parts in too_short.
  rewrite too_short. fixed_responses. first_send w.
Qed.
End TooShort.

Section OtherMethod.
Variables method path : str.
Variable rest : list str.
Hypothesis parts : request_parts request_data = method :: path :: rest.
Hypothesis not_get : method <> u "GET".

Lemma minimal_other_method :
  responds_with w [Recv 1024] Responses.method_not_allowed
                (Minimal.handle_client self w []).
Proof.
  enter_minimal. read_request received decoded parts request_data.
  rewrite (str_eqb_neq _ _ not_get). cbn [negb].
  fixed_responses. first_send w.
Qed.

Lemma extended_other_method :
  responds_with w [Recv 1024] Responses.method_not_allowed
                (Extended.handle_client self w []).
Proof.
  enter_extended. read_request received decoded parts request_data.
  rewrite (str_eqb_neq _ _ not_get). cbn [negb].
  fixed_responses. first_send w.
Qed.
End OtherMethod.
End Refused.

(** C6. A request (bytes were received and decode as UTF-8) whose first
    line splits on whitespace into fewer than two words is answered by
    either variant with the 400 response: it is what the handler sends
    first, without looking at the filesystem, and when the send succeeds
    the handler closes the socket with nothing else sent. *)
Theorem too_few_tokens_gives_400 :
  forall (self : SimpleWebServer) (w : World) (data : bytes) (request_data : str),
    sock_recv w = Ok data ->
    utf8_decode Strict data = Some request_data ->
    request_data <> [] ->
    (length (request_parts request_data) < 2)%nat ->
    Client.status_of Responses.bad_request = Some 400
    /\ responds_with w [Recv 1024] Responses.bad_request
                     (Minimal.handle_client self w [])
    /\ responds_with w [Recv 1024] Responses.bad_request
                     (Extended.handle_client self w []).
Proof.
  intros self w data request_data Hr Hd Hne Hlen. split; [| split].
  - apply ResponseFacts.statuses.
  - now apply minimal_too_short with (data := data) (request_data := request_data).
  - now apply extended_too_short with (data := data) (request_data := request_data).
Qed.

Lemma too_few_tokens_gives_400_witness :
  let w := Scenario.world (b "GET" ++ [x0d; x0a]) in
  request_parts (u "GET" ++ CRLF) = [u "GET"]
  /\ Client.status_of Responses.bad_request = Some 400
  /\ responds_with w [Recv 1024] Responses.bad_request
                   (Minimal.handle_client Scenario.self w [])
  /\ responds_with w [Recv 1024] Responses.bad_request
                   (Extended.handle_client Scenario.self w []).
Proof.
  split; [reflexivity|].
  apply (too_few_tokens_gives_400 Scenario.self
           (Scenario.world (b "GET" ++ [x0d; x0a]))
           (b "GET" ++ [x0d; x0a]) (u "GET" ++ CRLF)).
  - reflexivity.
  - reflexivity.
  - discriminate.
  - vm_compute. lia.
Defined.

(** C5. A request whose line has a method word and a path word, the method
    being anything but [GET], is answered by either variant with the 405
    response: it is what the handler sends first, and no path is resolved
    and the filesystem is not consulted before, whatever the path word
    is. *)
Theorem other_method_gives_405 :
  forall (self : SimpleWebServer) (w : World) (data : bytes) (request_data : str)
         (method path : str) (rest : list str),
    sock_recv w = Ok data ->
    utf8_decode Strict data = Some request_data ->
    request_parts request_data = method :: path :: rest ->
    method <> u "GET" ->
    Client.status_of Responses.method_not_allowed = Some 405
    /\ responds_with w [Recv 1024] Responses.method_not_allowed
                     (Minimal.handle_client self w [])
    /\ responds_with w [Recv 1024] Responses.method_not_allowed
                     (Extended.handle_client self w []).
Proof.
  intros self w data request_data method path rest Hr Hd Hp Hm.
  split; [| split].
  - apply ResponseFacts.statuses.
  - now apply minimal_other_method
      with (data := data) (request_data := request_data)
           (method := method) (path := path) (rest := rest).
  - now apply extended_other_method
      with (data := data) (request_data := request_data)
           (method := method) (path := path) (rest := rest).
Qed.

Lemma other_method_gives_405_witness :
  let w := Scenario.world (Scenario.request (u "POST /index.html HTTP/1.1")) in
  Client.status_of Responses.method_not_allowed = Some 405
  /\ responds_with w [Recv 1024] Responses.method_not_allowed
                   (Minimal.handle_client Scenario.self w [])
  /\ responds_with w [Recv 1024] Responses.method_not_allowed
                   (Extended.handle_client Scenario.self w []).
Proof.
  apply (other_method_gives_405 Scenario.self
           (Scenario.world (Scenario.request (u "POST /index.html HTTP/1.1")))
           (Scenario.request (u "POST /index.html HTTP/1.1"))
           (u "POST /index.html HTTP/1.1" ++ CRLF ++ u "Host: localhost" ++ CRLF ++ CRLF)
           (u "POST") (u "/index.html") [u "HTTP/1.1"]).
  - reflexivity.
  - reflexivity.
  - reflexivity.
  - discriminate.
Defined.

(** ** The default document *)

Section DefaultDocument.
Variable self : SimpleWebServer.
Variable w : World.
Variables data1 data2 : bytes.
Variables request1 request2 : str.
Variable method : str.
Variables rest1 rest2 : list str.
Hypothesis decoded1 : utf8_decode Strict data1 = Some request1.
Hypothesis decoded2 : utf8_decode Strict data2 = Some request2.
Hypothesis parts1 : request_parts request1 = method :: u "/" :: rest1.
Hypothesis parts2 : request_parts request2 = method :: u "/index.html" :: rest2.

Lemma minimal_default_document :
  Minimal.handle_client self (receiving w (Ok data1)) []
  = Minimal.handle_client self (receiving w (Ok data2)) [].
Proof.
  enter_minimal. world_fields. rewrite decoded1, decoded2.
  unfold request_parts in parts1, parts2.
  destruct request1 as [|c1 l1]; [discriminate parts1|].
  destruct request2 as [|c2 l2]; [discriminate parts2|].
  rewrite parts1, parts2. cbn [length Nat.ltb Nat.leb nth].
  change (str_eqb (u "/") (u "/")) with true.
  change (str_eqb (u "/index.html") (u "/")) with false.
  cbv iota. same_branches.
Qed.

Lemma extended_default_document :
  Extended.handle_client self (receiving w (Ok data1)) []
  = Extended.handle_client self (receiving w (Ok data2)) [].
Proof.
  enter_extended. world_fields. rewrite decoded1, decoded2.
  unfold request_parts in parts1, parts2.
  destruct request1 as [|c1 l1]; [discriminate parts1|].
  destruct request2 as [|c2 l2]; [discriminate parts2|].
  rewrite parts1, parts2. cbn [length Nat.ltb Nat.leb nth].
  change (Urllib.unquote (u "/")) with (u "/").
  change (Urllib.unquote (u "/index.html")) with (u "/index.html").
  change (str_eqb (u "/") (u "/")) with true.
  change (str_eqb (u "/index.html") (u "/")) with false.
  cbv iota. same_branches.
Qed.
End DefaultDocument.

(** C7. Two requests that differ only in the path word, [/] in one and
    [/index.html] in the other, make the handler of either variant do the
    same: the same calls in the same order and the same bytes sent, for
    every state of the filesystem and of the client socket. *)
Theorem root_path_is_index_html :
  forall (self : SimpleWebServer) (w : World) (data1 data2 : bytes)
         (request1 request2 : str) (method : str) (rest1 rest2 : list str),
    utf8_decode Strict data1 = Some request1 ->
    utf8_decode Strict data2 = Some request2 ->
    request_parts request1 = method :: u "/" :: rest1 ->
    request_parts request2 = method :: u "/index.html" :: rest2 ->
    Minimal.handle_client self (receiving w (Ok data1)) []
    = Minimal.handle_client self (receiving w (Ok data2)) []
    /\ Extended.handle_client self (receiving w (Ok data1)) []
       = Extended.handle_client self (receiving w (Ok data2)) [].
Proof.
  intros self w data1 data2 request1 request2 method rest1 rest2 H1 H2 P1 P2.
  split.
  - now apply minimal_default_document
      with (request1 := request1) (request2 := request2)
           (method := method) (rest1 := rest1) (rest2 := rest2).
  - now apply extended_default_document
      with (request1 := request1) (request2 := request2)
           (method := method) (rest1 := rest1) (rest2 := rest2).
Qed.

Lemma root_path_is_index_html_witness :
  let w := Scenario.world [] in
  let slash := Scenario.request (u "GET / HTTP/1.1") in
  let index := Scenario.request (u "GET /index.html HTTP/1.1") in
  (Minimal.handle_client Scenario.self (receiving w (Ok slash)) []
   = Minimal.handle_client Scenario.self (receiving w (Ok index)) []
   /\ Extended.handle_client Scenario.self (receiving w (Ok slash)) []
      = Extended.handle_client Scenario.self (receiving w (Ok index)) [])
  /\ map Client.body_of
         (sent (snd (Extended.handle_client Scenario.self (receiving w (Ok slash)) [])))
     = [b "hi"].
Proof.
  split; [|vm_compute; reflexivity].
  apply (root_path_is_index_html Scenario.self (Scenario.world [])
           (Scenario.request (u "GET / HTTP/1.1"))
           (Scenario.request (u "GET /index.html HTTP/1.1"))
           (u "GET / HTTP/1.1" ++ CRLF ++ u "Host: localhost" ++ CRLF ++ CRLF)
           (u "GET /index.html HTTP/1.1" ++ CRLF ++ u "Host: localhost" ++ CRLF ++ CRLF)
           (u "GET") [u "HTTP/1.1"] [u "HTTP/1.1"]);
    reflexivity.
Defined.

(** ** The check of the resolved path against the root *)

Section PrefixCheck.
Variable self : SimpleWebServer.
Variable w : World.
Variable data : bytes.
Variable request_data : str.
Variable raw_path : str.
Variable rest : list str.
Hypothesis received : sock_recv w = Ok data.
Hypothesis decoded : utf8_decode Strict data = Some request_data.
Hypothesis parts : request_parts request_data = u "GET" :: raw_path :: rest.

(** A resolved path that does not begin with the characters of the root
    is refused, and the filesystem is not consulted. *)
Lemma minimal_outside_prefix :
  startswith N.eqb (abs_path_of self w (minimal_path raw_path)) (root_dir self) = false ->
  responds_with w [Recv 1024] Responses.forbidden (Minimal.handle_client self w []).
Proof.
  intros Hout. enter_minimal. read_request received decoded parts request_data.
  method_is_get.
  unfold abs_path_of, file_path_of, minimal_path in Hout. rewrite Hout.
  cbn [negb]. fixed_responses. first_send w.
Qed.

Lemma extended_outside_prefix :
  startswith N.eqb (abs_path_of self w (extended_path raw_path)) (root_dir self) = false ->
  responds_with w [Recv 1024] Responses.forbidden (Extended.handle_client self w []).
Proof.
  intros Hout. enter_extended. read_request received decoded parts request_data.
  method_is_get.
  unfold abs_path_of, file_path_of, extended_path, minimal_path in Hout. rewrite Hout.
  cbn [negb]. fixed_responses. first_send w.
Qed.
End PrefixCheck.

(** C1, at the failing input.  The root is [/srv/root] and the request is
    [GET /../rootevil/secret.txt]: the resolved path
    [/srv/rootevil/secret.txt] lies outside the root at a component
    boundary, yet it begins with the characters of the root, and both
    variants open the file, read it and answer 200 with its content instead
    of 403. *)
Theorem sibling_of_root_is_served :
  let self := Scenario.self in
  let w := Scenario.world (Scenario.request (u "GET /../rootevil/secret.txt HTTP/1.1")) in
  let file_path := u "/srv/root/../rootevil/secret.txt" in
  let abs_path := u "/srv/rootevil/secret.txt" in
  root_dir self = u "/srv/root"
  /\ abs_path_of self w (u "/../rootevil/secret.txt") = abs_path
  /\ within_root (root_dir self) abs_path = false
  /\ startswith N.eqb abs_path (root_dir self) = true
  /\ (exists response,
        Minimal.handle_client self w []
        = (Ok tt, [Recv 1024; Isfile file_path; Access file_path; OpenRead file_path;
                   Sendall response true; Close])
        /\ Client.status_of response = Some 200
        /\ Client.body_of response = b "secret")
  /\ (exists response,
        Extended.handle_client self w []
        = (Ok tt, [Recv 1024; Isdir abs_path; Isfile abs_path; Access abs_path;
                   OpenRead abs_path; Sendall response true; Close])
        /\ Client.status_of response = Some 200
        /\ Client.body_of response = b "secret").
Proof.
  cbv zeta. repeat split; try reflexivity.
  - eexists. split; [vm_compute; reflexivity|]. split; vm_compute; reflexivity.
  - eexists. split; [vm_compute; reflexivity|]. split; vm_compute; reflexivity.
Qed.

(** ** Percent-decoding before the path is resolved *)

Section Unquoted.
Variable self : SimpleWebServer.
Variable w : World.
Variable data : bytes.
Variable request_data : str.
Variable path : str.
Variable enc : bytes.
Variable safe : byte -> bool.
Variable rest : list str.
Hypothesis received : sock_recv w = Ok data.
Hypothesis decoded : utf8_decode Strict data = Some request_data.
Hypothesis encoded : utf8_encode path = Some enc.
Hypothesis safe_is_plain :
  forall x, safe x = true -> Byte.to_N x < 0x80 /\ Byte.to_N x <> 0x25.
Hypothesis parts :
  request_parts request_data = u "GET" :: Urllib.quote safe enc :: rest.

Let abs_path := abs_path_of self w (minimal_path path).

Hypothesis inside : startswith N.eqb abs_path (root_dir self) = true.
Hypothesis no_directory : isdir w abs_path = false.
Hypothesis a_file : isfile w abs_path = true.
Hypothesis readable : access_R_OK w abs_path = true.

Lemma extended_reads_unquoted :
  exists result tr,
    Extended.handle_client self w []
    = (result,
       Recv 1024 :: Isdir abs_path :: Isfile abs_path :: Access abs_path
       :: OpenRead abs_path :: tr).
Proof.
  enter_extended. read_request received decoded parts request_data.
  method_is_get.
  rewrite (unquote_quote safe safe_is_plain path enc encoded).
  unfold abs_path, abs_path_of, file_path_of, minimal_path in *.
  rewrite inside. cbn [negb]. run. rewrite no_directory. run.
  rewrite a_file. run. rewrite readable. run.
  all_calls; eexists; eexists; reflexivity.
Qed.
End Unquoted.

(** C8, as amended.  In the extended variant the second word of the
    request line is percent-decoded before the path is resolved: when that
    word is the quoted UTF-8 encoding of [path], the handler resolves
    [path] itself, with its literal characters, against the root, and it
    is the file of that name that is tested, opened and read. *)
Theorem percent_decoded_before_resolution :
  forall (self : SimpleWebServer) (w : World) (data : bytes) (request_data : str)
         (path : str) (enc : bytes) (safe : byte -> bool) (rest : list str),
    sock_recv w = Ok data ->
    utf8_decode Strict data = Some request_data ->
    utf8_encode path = Some enc ->
    (forall x, safe x = true -> Byte.to_N x < 0x80 /\ Byte.to_N x <> 0x25) ->
    request_parts request_data = u "GET" :: Urllib.quote safe enc :: rest ->
    let abs_path := abs_path_of self w (minimal_path path) in
    startswith N.eqb abs_path (root_dir self) = true ->
    isdir w abs_path = false ->
    isfile w abs_path = true ->
    access_R_OK w abs_path = true ->
    Urllib.unquote (Urllib.quote safe enc) = path
    /\ exists result tr,
        Extended.handle_client self w []
        = (result,
           Recv 1024 :: Isdir abs_path :: Isfile abs_path :: Access abs_path
           :: OpenRead abs_path :: tr).
Proof.
  intros self w data request_data path enc safe rest Hr Hd He Hs Hp abs_path
         Hin Hdir Hfile Hacc.
  split.
  - now apply unquote_quote.
  - now apply extended_reads_unquoted
      with (data := data) (request_data := request_data) (enc := enc)
           (safe := safe) (rest := rest).
Qed.

Lemma always_safe_is_plain :
  forall x, Urllib.always_safe x = true -> Byte.to_N x < 0x80 /\ Byte.to_N x <> 0x25.
Proof.
  intros x. destruct x; vm_compute; intros H; try discriminate H;
    (split; [reflexivity|discriminate]).
Qed.

Lemma percent_decoded_before_resolution_witness :
  let w :=
    Scenario.world (Scenario.request (u "GET /%E4%B8%AD%E6%96%87.txt HTTP/1.1")) in
  Urllib.quote Urllib.always_safe (returned (encode (u "/中文.txt")))
  = u "/%E4%B8%AD%E6%96%87.txt"
  /\ (Urllib.unquote (u "/%E4%B8%AD%E6%96%87.txt") = u "/中文.txt"
      /\ exists result tr,
          Extended.handle_client Scenario.self w []
          = (result,
             Recv 1024 :: Isdir (u "/srv/root/中文.txt")
             :: Isfile (u "/srv/root/中文.txt") :: Access (u "/srv/root/中文.txt")
             :: OpenRead (u "/srv/root/中文.txt") :: tr))
  /\ map Client.body_of (sent (snd (Extended.handle_client Scenario.self w [])))
     = [b "zh"].
Proof.
  split; [reflexivity|]. split; [|vm_compute; reflexivity].
  apply (percent_decoded_before_resolution Scenario.self
           (Scenario.world (Scenario.request (u "GET /%E4%B8%AD%E6%96%87.txt HTTP/1.1")))
           (Scenario.request (u "GET /%E4%B8%AD%E6%96%87.txt HTTP/1.1"))
           (u "GET /%E4%B8%AD%E6%96%87.txt HTTP/1.1" ++ CRLF
            ++ u "Host: localhost" ++ CRLF ++ CRLF)
           (u "/中文.txt") (returned (encode (u "/中文.txt")))
           Urllib.always_safe [u "HTTP/1.1"]).
  - reflexivity.
  - reflexivity.
  - reflexivity.
  - exact always_safe_is_plain.
  - reflexivity.
  - reflexivity.
  - reflexivity.
  - reflexivity.
  - reflexivity.
Defined.

(** C8 as it stands fails on [src/server.py]: the file [/srv/root/中文.txt]
    is there, and the minimal variant, asked for its percent-encoded name,
    looks for a file whose name is the encoded text and answers 404. *)
Lemma minimal_does_not_unquote :
  let w := Scenario.world (Scenario.request (u "GET /%E4%B8%AD%E6%96%87.txt HTTP/1.1")) in
  isfile w (u "/srv/root/中文.txt") = true
  /\ Urllib.unquote (u "/%E4%B8%AD%E6%96%87.txt") = u "/中文.txt"
  /\ Minimal.handle_client Scenario.self w []
     = (Ok tt, [Recv 1024; Isfile (u "/srv/root/%E4%B8%AD%E6%96%87.txt");
                Sendall Responses.not_found true; Close])
  /\ Client.status_of Responses.not_found = Some 404.
Proof. cbv zeta. repeat split; vm_compute; reflexivity. Qed.

(** ** Directories *)

Lemma fold_left_app_concat {A} (f : A -> str) (items : list A) :
  forall init,
    fold_left (fun content item => content ++ f item) items init
    = init ++ concat (map f items).
Proof.
  induction items as [|item items IH]; intros init; cbn [fold_left map concat].
  - now rewrite app_nil_r.
  - rewrite IH. now rewrite <- app_assoc.
Qed.

(** The directory listing is its heading, one list item with one link for
    each entry, in order, and the end of the list. *)
Lemma listing_items (path : str) (items : list str) :
  Extended.listing path items
  = u "<h1>目录列表：" ++ path ++ u "</h1><ul>"
    ++ concat (map (Extended.listing_item path) items) ++ u "</ul>".
Proof.
  unfold Extended.listing. rewrite fold_left_app_concat.
  now rewrite <- !app_assoc.
Qed.

Section Listing.
Variable self : SimpleWebServer.
Variable w : World.
Variable data : bytes.
Variable request_data : str.
Variable raw_path : str.
Variable rest : list str.
Variable items : list str.
Variable body : bytes.
Hypothesis received : sock_recv w = Ok data.
Hypothesis decoded : utf8_decode Strict data = Some request_data.
Hypothesis parts : request_parts request_data = u "GET" :: raw_path :: rest.

Let path := extended_path raw_path.
Let abs_path := abs_path_of self w path.

Hypothesis inside : startswith N.eqb abs_path (root_dir self) = true.
Hypothesis directory : isdir w abs_path = true.

Section Listed.
Hypothesis listed : listdir w abs_path = Ok items.

Let content :=
  u "<h1>目录列表：" ++ path ++ u "</h1><ul>"
  ++ concat (map (Extended.listing_item path) items) ++ u "</ul>".

Hypothesis encoded : utf8_encode content = Some body.

Lemma extended_lists_directory :
  exists head,
    utf8_encode
      (u "HTTP/1.1 200 OK" ++ CRLF
       ++ u "Server: SimplePythonWebServer" ++ CRLF
       ++ u "Connection: close" ++ CRLF
       ++ u "Content-Length: " ++ str_of_int (N.of_nat (length content)) ++ CRLF
       ++ u "Content-Type: text/html" ++ CRLF ++ CRLF)
    = Some head
    /\ responds_with w [Recv 1024; Isdir abs_path; Listdir abs_path] (head ++ body)
                     (Extended.handle_client self w []).
Proof.
  destruct (extended_create_response_content
              200 (u "OK") (u "text/html") (Str content) body)
    as (head & Hhead & Hresponse); auto with encodable.
  exists head. split.
  { rewrite <- Hhead. f_equal. }
  enter_extended. read_request received decoded parts request_data.
  method_is_get.
  unfold content, abs_path, path, abs_path_of, file_path_of,
    extended_path, minimal_path in *.
  rewrite inside. cbn [negb]. run. rewrite directory. run. rewrite listed.
  rewrite listing_items, Hresponse. first_send w.
Qed.
End Listed.

(** A directory that cannot be listed is answered with the 500 response of
    the listing. *)
Lemma extended_unlistable_directory (e : exn) :
  listdir w abs_path = Raise e ->
  responds_with w [Recv 1024; Isdir abs_path; Listdir abs_path]
                Responses.listing_failed (Extended.handle_client self w []).
Proof.
  intros unlisted.
  enter_extended. read_request received decoded parts request_data.
  method_is_get.
  unfold abs_path, path, abs_path_of, file_path_of, extended_path, minimal_path in *.
  rewrite inside. cbn [negb]. run. rewrite directory. run. rewrite unlisted.
  fixed_responses. first_send w.
Qed.
End Listing.

(** C4, as amended.  In the extended variant, a [GET] request whose
    resolved path is inside the root (it begins with the root) and is a
    directory that [listdir] can read gets the 200 response with content
    type [text/html] whose body is the UTF-8 text of a heading, one list
    item with one link for each entry of the directory, in the order of
    [listdir], and the end of the list; the entries are not descended
    into. *)
Theorem directory_gets_a_link_per_entry :
  forall (self : SimpleWebServer) (w : World) (data : bytes) (request_data : str)
         (raw_path : str) (rest : list str) (items : list str) (body : bytes),
    sock_recv w = Ok data ->
    utf8_decode Strict data = Some request_data ->
    request_parts request_data = u "GET" :: raw_path :: rest ->
    let path := extended_path raw_path in
    let abs_path := abs_path_of self w path in
    let link := fun item =>
      u "<li><a href=" ++ dquote
      ++ replace_all N.eqb backslash (u "/") (OsPath.join path item)
      ++ dquote ++ u ">" ++ item ++ u "</a></li>" in
    let content :=
      u "<h1>目录列表：" ++ path ++ u "</h1><ul>"
      ++ concat (map link items) ++ u "</ul>" in
    startswith N.eqb abs_path (root_dir self) = true ->
    isdir w abs_path = true ->
    listdir w abs_path = Ok items ->
    utf8_encode content = Some body ->
    exists head,
      utf8_encode
        (u "HTTP/1.1 200 OK" ++ CRLF
         ++ u "Server: SimplePythonWebServer" ++ CRLF
         ++ u "Connection: close" ++ CRLF
         ++ u "Content-Length: " ++ str_of_int (N.of_nat (length content)) ++ CRLF
         ++ u "Content-Type: text/html" ++ CRLF ++ CRLF)
      = Some head
      /\ responds_with w [Recv 1024; Isdir abs_path; Listdir abs_path] (head ++ body)
                       (Extended.handle_client self w []).
Proof.
  intros self w data request_data raw_path rest items body Hr Hd Hp
         path abs_path link content Hin Hdir Hls Henc.
  now apply extended_lists_directory
    with (data := data) (request_data := request_data) (rest := rest).
Qed.

Lemma directory_gets_a_link_per_entry_witness :
  let w := Scenario.world (Scenario.request (u "GET /docs/ HTTP/1.1")) in
  let body :=
    returned
      (encode
         (u "<h1>目录列表：/docs/</h1><ul><li><a href="
          ++ dquote ++ u "/docs/a.txt" ++ dquote ++ u ">a.txt</a></li></ul>")) in
  listdir w (u "/srv/root/docs") = Ok [u "a.txt"]
  /\ exists head,
      utf8_encode
        (u "HTTP/1.1 200 OK" ++ CRLF
         ++ u "Server: SimplePythonWebServer" ++ CRLF
         ++ u "Connection: close" ++ CRLF
         ++ u "Content-Length: 69" ++ CRLF
         ++ u "Content-Type: text/html" ++ CRLF ++ CRLF)
      = Some head
      /\ responds_with w
           [Recv 1024; Isdir (u "/srv/root/docs"); Listdir (u "/srv/root/docs")]
           (head ++ body) (Extended.handle_client Scenario.self w []).
Proof.
  split; [reflexivity|].
  apply (directory_gets_a_link_per_entry Scenario.self
           (Scenario.world (Scenario.request (u "GET /docs/ HTTP/1.1")))
           (Scenario.request (u "GET /docs/ HTTP/1.1"))
           (u "GET /docs/ HTTP/1.1" ++ CRLF ++ u "Host: localhost" ++ CRLF ++ CRLF)
           (u "/docs/") [u "HTTP/1.1"] [u "a.txt"]
           (returned
              (encode
                 (u "<h1>目录列表：/docs/</h1><ul><li><a href="
                  ++ dquote ++ u "/docs/a.txt" ++ dquote
                  ++ u ">a.txt</a></li></ul>")))).
  - reflexivity.
  - reflexivity.
  - reflexivity.
  - reflexivity.
  - reflexivity.
  - reflexivity.
  - vm_compute. reflexivity.
Defined.

(** C4 as it stands fails on [src/server.py]: [/srv/root/docs] is a
    directory inside the root, and the minimal variant, which has no
    listing, answers 404. *)
Lemma minimal_answers_404_for_a_directory :
  let self := Scenario.self in
  let w := Scenario.world (Scenario.request (u "GET /docs HTTP/1.1")) in
  abs_path_of self w (u "/docs") = u "/srv/root/docs"
  /\ within_root (root_dir self) (u "/srv/root/docs") = true
  /\ isdir w (u "/srv/root/docs") = true
  /\ Minimal.handle_client self w []
     = (Ok tt, [Recv 1024; Isfile (u "/srv/root/docs");
                Sendall Responses.not_found true; Close])
  /\ Client.status_of Responses.not_found = Some 404.
Proof. cbv zeta. repeat split; vm_compute; reflexivity. Qed.

(** ** The announced length of a body *)

(** C3, at the failing input.  The extended variant lists [/srv/root/docs]
    for [GET /docs/]: the body it sends is the UTF-8 encoding of the
    listing, 79 bytes, and the [Content-Length] header says 69, the number
    of characters of the listing. *)
Theorem listing_content_length_counts_characters :
  let w := Scenario.world (Scenario.request (u "GET /docs/ HTTP/1.1")) in
  let content := Extended.listing (u "/docs/") [u "a.txt"] in
  exists response,
    Extended.handle_client Scenario.self w []
    = (Ok tt, [Recv 1024; Isdir (u "/srv/root/docs"); Listdir (u "/srv/root/docs");
               Sendall response true; Close])
    /\ Client.status_of response = Some 200
    /\ Client.header (u "Content-Type") response = Some (u "text/html")
    /\ Client.header (u "Content-Length") response = Some (u "69")
    /\ length (Client.body_of response) = 79%nat
    /\ utf8_decode Strict (Client.body_of response) = Some content
    /\ length content = 69%nat.
Proof.
  cbv zeta. eexists. split; [vm_compute; reflexivity|].
  repeat split; vm_compute; reflexivity.
Qed.

(** ** One response, then the close *)

Lemma utf8_decode_not_empty (h : error_handler) (x : byte) (data : bytes) :
  utf8_decode h (x :: data) <> Some [].
Proof.
  intros H. cbn [utf8_decode] in H.
  repeat match type of H with
    | (if ?c then _ else _) = _ => destruct c
    | match ?t with [] => _ | _ :: _ => _ end = _ => destruct t
    end;
    first [ apply on_error_inv in H as (s' & _ & H)
          | apply emit_inv in H as (s' & _ & H) ];
    discriminate H.
Qed.

Lemma quiet_nil : quiet [].
Proof. split; [reflexivity|intros []]. Qed.

Lemma quiet_cons (e : event) (tr : trace) :
  match e with Sendall _ _ | Close => False | _ => True end ->
  quiet tr -> quiet (e :: tr).
Proof.
  intros He [Hs Hc]. split.
  - destruct e; try exact Hs; contradiction.
  - intros [E|H]; [subst e; exact He|now apply Hc].
Qed.

Ltac quiet_trace := repeat (apply quiet_cons; [exact I|]); apply quiet_nil.

(** The [try] block has run to its end: name how it ended. *)
Ltac outcome :=
  first
    [ match goal with
      | |- try_outcome (Ok tt, ?tr) =>
          let before := eval cbv beta iota delta [removelast] in (removelast tr) in
          apply (Responded before); quiet_trace
      end
    | apply Failed; quiet_trace ].

(** The handler has run to its end: its last call was [close]. *)
Ltac closed_last :=
  match goal with
  | |- exists result before, (?r, ?tr) = (result, before ++ [Close]) /\ _ =>
      let before := eval cbv beta iota delta [removelast] in (removelast tr) in
      exists r, before; split; [reflexivity|cbn [In]; intuition discriminate]
  end.

Ltac every_path tac :=
  repeat first
    [ progress (run; fixed_responses)
    | tac
    | match goal with
      | |- context [if ?c then _ else _] => destruct c
      end
    | next_call ].

Section OneResponse.
Variable self : SimpleWebServer.
Variable w : World.

(** On every path, whatever is received and whether or not a send
    succeeds, the handler closes the socket once, as its last call. *)
Lemma minimal_closes_last :
  exists result before,
    Minimal.handle_client self w [] = (result, before ++ [Close])
    /\ ~ In Close before.
Proof.
  enter_minimal.
  destruct (sock_recv w) as [data|e]; [|every_path ltac:(idtac; closed_last)].
  destruct (utf8_decode Strict data) as [[|c l]|]; every_path ltac:(idtac; closed_last).
Qed.

Lemma extended_closes_last :
  exists result before,
    Extended.handle_client self w [] = (result, before ++ [Close])
    /\ ~ In Close before.
Proof.
  enter_extended.
  destruct (sock_recv w) as [data|e]; [|every_path ltac:(idtac; closed_last)].
  destruct (utf8_decode Strict data) as [[|c l]|]; every_path ltac:(idtac; closed_last).
Qed.

Hypothesis something : sock_recv w <> Ok [].
Hypothesis delivered : forall n, sock_sendall w n = true.

Lemma minimal_try_outcome : try_outcome (Minimal.handle_client_try self w []).
Proof.
  unfold Minimal.handle_client_try, decode. run.
  destruct (sock_recv w) as [data|e] eqn:Hrecv; [|outcome].
  destruct (utf8_decode Strict data) as [request_data|] eqn:Hdecode; [|outcome].
  destruct request_data as [|c l].
  { destruct data as [|x data]; [now elim something|].
    now apply utf8_decode_not_empty in Hdecode. }
  every_path ltac:(first [rewrite delivered | outcome]).
Qed.

Lemma extended_try_outcome : try_outcome (Extended.handle_client_try self w []).
Proof.
  unfold Extended.handle_client_try, decode. run.
  destruct (sock_recv w) as [data|e] eqn:Hrecv; [|outcome].
  destruct (utf8_decode Strict data) as [request_data|] eqn:Hdecode; [|outcome].
  destruct request_data as [|c l].
  { destruct data as [|x data]; [now elim something|].
    now apply utf8_decode_not_empty in Hdecode. }
  every_path ltac:(first [rewrite delivered | outcome]).
Qed.

Lemma minimal_one_response :
  exists before response,
    Minimal.handle_client self w [] = (Ok tt, before ++ [Sendall response true; Close])
    /\ quiet before
    /\ (forall e tr, Minimal.handle_client_try self w [] = (Raise e, tr) ->
                     response = Responses.internal_error).
Proof.
  pose proof minimal_try_outcome as H.
  unfold Minimal.handle_client, Minimal.handle_client_except. run.
  destruct H as [before response Hq|e before Hq].
  - exists before, response. rewrite <- app_assoc. repeat split; try apply Hq.
    intros e tr [=].
  - fixed_responses. rewrite delivered. exists before, Responses.internal_error.
    rewrite <- app_assoc. repeat split; apply Hq.
Qed.

Lemma extended_one_response :
  exists before response,
    Extended.handle_client self w [] = (Ok tt, before ++ [Sendall response true; Close])
    /\ quiet before
    /\ (forall e tr, Extended.handle_client_try self w [] = (Raise e, tr) ->
                     response = Responses.internal_error).
Proof.
  pose proof extended_try_outcome as H.
  unfold Extended.handle_client, Extended.handle_client_except. run.
  destruct H as [before response Hq|e before Hq].
  - exists before, response. rewrite <- app_assoc. repeat split; try apply Hq.
    intros e tr [=].
  - fixed_responses. rewrite delivered. exists before, Responses.internal_error.
    rewrite <- app_assoc. repeat split; apply Hq.
Qed.
End OneResponse.

(** C2, as amended.  On every accepted connection whose first [recv] does
    not return zero bytes, and whose client takes what is sent, the handler
    of either variant sends exactly one response and then closes the
    socket, exactly once and as its last action; when the [try] block
    fails, that one response is the fixed 500 response. *)
Theorem one_response_then_close :
  forall (self : SimpleWebServer) (w : World),
    sock_recv w <> Ok [] ->
    (forall n, sock_sendall w n = true) ->
    (exists before response,
        Minimal.handle_client self w [] = (Ok tt, before ++ [Sendall response true; Close])
        /\ quiet before
        /\ (forall e tr, Minimal.handle_client_try self w [] = (Raise e, tr) ->
                         response = Responses.internal_error))
    /\ (exists before response,
           Extended.handle_client self w []
           = (Ok tt, before ++ [Sendall response true; Close])
           /\ quiet before
           /\ (forall e tr, Extended.handle_client_try self w [] = (Raise e, tr) ->
                            response = Responses.internal_error))
    /\ Client.status_of Responses.internal_error = Some 500
    /\ Client.body_of Responses.internal_error = b "<h1>500 Internal Server Error</h1>".
Proof.
  intros self w Hne Hs. split; [|split; [|split]].
  - now apply minimal_one_response.
  - now apply extended_one_response.
  - apply ResponseFacts.statuses.
  - vm_compute. reflexivity.
Qed.

Lemma one_response_then_close_witness :
  let w := Scenario.world (Scenario.request (u "GET /missing.html HTTP/1.1")) in
  (exists before response,
      Minimal.handle_client Scenario.self w []
      = (Ok tt, before ++ [Sendall response true; Close])
      /\ quiet before
      /\ (forall e tr, Minimal.handle_client_try Scenario.self w [] = (Raise e, tr) ->
                       response = Responses.internal_error))
  /\ (exists before response,
         Extended.handle_client Scenario.self w []
         = (Ok tt, before ++ [Sendall response true; Close])
         /\ quiet before
         /\ (forall e tr, Extended.handle_client_try Scenario.self w [] = (Raise e, tr) ->
                          response = Responses.internal_error))
  /\ Client.status_of Responses.internal_error = Some 500
  /\ Client.body_of Responses.internal_error = b "<h1>500 Internal Server Error</h1>".
Proof.
  apply (one_response_then_close Scenario.self
           (Scenario.world (Scenario.request (u "GET /missing.html HTTP/1.1")))).
  - vm_compute. discriminate.
  - reflexivity.
Defined.

(** C2 as it stands fails when the first [recv] returns zero bytes: the
    socket is closed and [sendall] was never called, in either variant. *)
Lemma closed_without_a_response :
  let w := Scenario.world [] in
  let minimal := snd (Minimal.handle_client Scenario.self w []) in
  let extended := snd (Extended.handle_client Scenario.self w []) in
  sock_recv w = Ok []
  /\ In Close minimal /\ sent minimal = []
  /\ In Close extended /\ sent extended = [].
Proof. cbv zeta. repeat split; vm_compute; auto. Qed.

(** When the client does not take the response, the failure of [sendall]
    is caught like any other and a second call sends the 500 response. *)
Example refused_response_is_followed_by_500 :
  let w := {|
    sock_recv := Ok (b "GET" ++ [x0d; x0a]);
    sock_sendall := fun n => Nat.eqb n 1;
    getcwd := u "/";
    isdir := fun _ => false;
    isfile := fun _ => false;
    access_R_OK := fun _ => false;
    read_file := fun _ => Raise OSError;
    listdir := fun _ => Raise OSError;
    guess_type := fun _ => None
  |} in
  Minimal.handle_client Scenario.self w []
  = (Ok tt, [Recv 1024; Sendall Responses.bad_request false;
             Sendall Responses.internal_error true; Close])
  /\ Extended.handle_client Scenario.self w []
     = (Ok tt, [Recv 1024; Sendall Responses.bad_request false;
                Sendall Responses.internal_error true; Close]).
Proof. cbv zeta. split; vm_compute; reflexivity. Qed.

(** * Further properties of the two variants *)

(** ** What [create_response] returns *)

Lemma join_seq_lines (f : str * str -> str) (headers : dict) :
  headers <> [] ->
  join_seq CRLF (map f headers) ++ CRLF ++ CRLF
  = concat (map (fun kv => f kv ++ CRLF) headers) ++ CRLF.
Proof.
  induction headers as [|kv headers IH]; [easy|]. intros _.
  destruct headers as [|kv' headers].
  - cbn [map join_seq concat]. now rewrite app_nil_r, <- app_assoc.
  - change (join_seq CRLF (map f (kv :: kv' :: headers)))
      with (f kv ++ CRLF ++ join_seq CRLF (map f (kv' :: headers))).
    rewrite <- !app_assoc, IH by discriminate.
    cbn [map concat]. now rewrite <- !app_assoc.
Qed.

Lemma setitem_not_empty (d : dict) (k v : str) : setitem d k v <> [].
Proof.
  destruct d as [|[k' v'] d]; cbn [setitem]; [discriminate|].
  destruct (str_eqb k' k); discriminate.
Qed.

Lemma update_not_empty (other d : dict) : d <> [] -> update d other <> [].
Proof.
  unfold update. revert d. induction other as [|kv other IH]; intros d H; [exact H|].
  cbn [fold_left]. apply IH, setitem_not_empty.
Qed.

Lemma minimal_headers_not_empty (content : content) (content_type : str) :
  minimal_headers content content_type <> [].
Proof.
  unfold minimal_headers. destruct (truthy content);
    [apply setitem_not_empty|discriminate].
Qed.

Lemma extended_headers_not_empty
      (content : content) (content_type : str) (extra_headers : option dict) :
  extended_headers content content_type extra_headers <> [].
Proof.
  unfold extended_headers.
  destruct extra_headers as [[|kv extra]|];
    try apply minimal_headers_not_empty.
  apply update_not_empty, minimal_headers_not_empty.
Qed.

(** The bytes of a head whose dict is [headers], as the function joins
    them. *)
Lemma head_bytes (status_code : N) (status_message : str) (headers : dict) :
  headers <> [] ->
  utf8_encode (message_head status_code status_message headers)
  = match
      utf8_encode
        (u "HTTP/1.1 " ++ str_of_int status_code ++ u " " ++ status_message ++ CRLF),
      utf8_encode
        (join_seq CRLF (map (fun kv => fst kv ++ u ": " ++ snd kv) headers)
         ++ CRLF ++ CRLF)
    with
    | Some l, Some h => Some (l ++ h)
    | _, _ => None
    end.
Proof.
  intros H.
  pose proof (join_seq_lines (fun kv => fst kv ++ u ": " ++ snd kv) headers H) as J.
  unfold str in *. rewrite J. clear J.
  match goal with
  | |- _ = match utf8_encode ?l with
           | Some _ => match utf8_encode ?h with _ => _ end
           | None => _
           end =>
      pose proof (utf8_encode_app l h) as J
  end.
  unfold str in *. rewrite <- J. clear J.
  f_equal. unfold message_head. rewrite <- !app_assoc.
  erewrite map_ext; [reflexivity|]. intros kv. cbv beta. now rewrite <- !app_assoc.
Qed.

Lemma minimal_create_response_message
      (status_code : N) (status_message : str) (content : content) (content_type : str) :
  Minimal.create_response status_code status_message content content_type
  = message
      (utf8_encode
         (message_head status_code status_message (minimal_headers content content_type)))
      (message_body content).
Proof.
  rewrite head_bytes by apply minimal_headers_not_empty.
  unfold Minimal.create_response, message, message_body, encode, encoded_content.
  fold fixed_headers. fold (minimal_headers content content_type).
  destruct (utf8_encode (_ ++ _ ++ _ ++ status_message ++ CRLF)) as [l|];
    [|reflexivity].
  destruct (utf8_encode (join_seq CRLF _ ++ CRLF ++ CRLF)) as [h|];
    [|now destruct (truthy content), content].
  destruct (truthy content); [|now rewrite app_nil_r].
  destruct content as [data|text]; [reflexivity|].
  now destruct (utf8_encode text).
Qed.

Lemma extended_create_response_message
      (status_code : N) (status_message : str) (content : content) (content_type : str)
      (extra_headers : option dict) :
  Extended.create_response status_code status_message content content_type extra_headers
  = message
      (utf8_encode
         (message_head status_code status_message
                       (extended_headers content content_type extra_headers)))
      (message_body content).
Proof.
  rewrite head_bytes by apply extended_headers_not_empty.
  unfold Extended.create_response, message, message_body, encode, encoded_content.
  fold fixed_headers. fold (minimal_headers content content_type).
  fold (extended_headers content content_type extra_headers).
  destruct (utf8_encode (_ ++ _ ++ _ ++ status_message ++ CRLF)) as [l|];
    [|reflexivity].
  destruct (utf8_encode (join_seq CRLF _ ++ CRLF ++ CRLF)) as [h|];
    [|now destruct (truthy content), content].
  destruct (truthy content); [|now rewrite app_nil_r].
  destruct content as [data|text]; [reflexivity|].
  now destruct (utf8_encode text).
Qed.

(** Either [create_response] returns the head of the message followed by
    its body: the status line, one line [Name: value] for each header of
    the dict in the order of the dict, and an empty line, each ended by
    CRLF, then the bytes of the content, and no byte for a content that is
    empty.  It raises [UnicodeEncodeError] when the head or a [str] content
    cannot be encoded, and only then. *)
Theorem create_response_is_head_then_body :
  forall (status_code : N) (status_message : str) (content : content)
         (content_type : str) (extra_headers : option dict),
    Minimal.create_response status_code status_message content content_type
    = message
        (utf8_encode
           (message_head status_code status_message
                         (minimal_headers content content_type)))
        (message_body content)
    /\ Extended.create_response status_code status_message content content_type
                                extra_headers
       = message
           (utf8_encode
              (message_head status_code status_message
                            (extended_headers content content_type extra_headers)))
           (message_body content).
Proof.
  intros. split.
  - apply minimal_create_response_message.
  - apply extended_create_response_message.
Qed.

(** An [extra_headers] that is an empty dict is not looked at, like [None],
    and without extra headers the function of the extended variant returns
    what the function of the minimal variant returns. *)
Theorem no_extra_headers_is_the_minimal_response :
  forall (status_code : N) (status_message : str) (content : content)
         (content_type : str),
    Extended.create_response status_code status_message content content_type (Some [])
    = Extended.create_response status_code status_message content content_type None
    /\ Extended.create_response status_code status_message content content_type None
       = Minimal.create_response status_code status_message content content_type.
Proof. intros. split; reflexivity. Qed.

(** A content that is empty, [b''] or [''], gets no [Content-Length] and no
    [Content-Type]: the response is the status line and the two fixed
    headers, whatever [content_type] is, and it has no body. *)
Theorem empty_content_has_no_content_headers :
  forall (status_code : N) (status_message : str) (content : content)
         (content_type : str),
    truthy content = false ->
    encodable status_message ->
    exists head,
      utf8_encode
        (u "HTTP/1.1 " ++ str_of_int status_code ++ u " " ++ status_message ++ CRLF
         ++ u "Server: SimplePythonWebServer" ++ CRLF
         ++ u "Connection: close" ++ CRLF ++ CRLF)
      = Some head
      /\ Minimal.create_response status_code status_message content content_type
         = Ok head
      /\ Extended.create_response status_code status_message content content_type None
         = Ok head.
Proof.
  intros status_code status_message content content_type Hempty Hm.
  destruct (encodable_encode
              (u "HTTP/1.1 " ++ str_of_int status_code ++ u " " ++ status_message ++ CRLF
               ++ u "Server: SimplePythonWebServer" ++ CRLF
               ++ u "Connection: close" ++ CRLF ++ CRLF)) as [head Hhead];
    [encodable_parts|].
  exists head. split; [exact Hhead|].
  assert (Hmin : Minimal.create_response status_code status_message content content_type
                 = Ok head).
  { rewrite minimal_create_response_message.
    unfold minimal_headers, message_body. rewrite Hempty.
    replace (message_head status_code status_message fixed_headers)
      with (u "HTTP/1.1 " ++ str_of_int status_code ++ u " " ++ status_message ++ CRLF
            ++ u "Server: SimplePythonWebServer" ++ CRLF
            ++ u "Connection: close" ++ CRLF ++ CRLF).
    - rewrite Hhead. cbn [message]. now rewrite app_nil_r.
    - unfold message_head. rewrite <- ?app_assoc. do 4 f_equal. }
  split; [exact Hmin|exact Hmin].
Qed.

Lemma empty_content_has_no_content_headers_witness :
  exists head,
    utf8_encode
      (u "HTTP/1.1 " ++ str_of_int 403 ++ u " " ++ u "Forbidden" ++ CRLF
       ++ u "Server: SimplePythonWebServer" ++ CRLF
       ++ u "Connection: close" ++ CRLF ++ CRLF)
    = Some head
    /\ Minimal.create_response 403 (u "Forbidden") (Str []) (u "image/png") = Ok head
    /\ Extended.create_response 403 (u "Forbidden") (Str []) (u "image/png") None = Ok head.
Proof.
  apply (empty_content_has_no_content_headers 403 (u "Forbidden") (Str []) (u "image/png")).
  - reflexivity.
  - apply u_encodable.
Defined.

(** ** The dict of headers *)

Lemma str_eqb_refl (s : str) : str_eqb s s = true.
Proof. now apply seq_eqb_N_true. Qed.

Lemma str_eqb_sym (s t : str) : str_eqb s t = str_eqb t s.
Proof.
  destruct (str_eqb t s) eqn:E.
  - apply seq_eqb_N_true in E. subst. apply str_eqb_refl.
  - apply str_eqb_neq. intros ->. now rewrite str_eqb_refl in E.
Qed.







Lemma getitem_setitem (d : dict) (k v k' : str) :
  getitem (setitem d k v) k' = if str_eqb k k' then Some v else getitem d k'.
Proof.
  unfold getitem.
  induction d as [|[k0 v0] d IH]; cbn [setitem find fst snd option_map].
  - now destruct (str_eqb k k').
  - destruct (str_eqb k0 k) eqn:E; cbn [find fst snd].
    + apply seq_eqb_N_true in E. subst k0.
      now destruct (str_eqb k k').
    + destruct (str_eqb k0 k') eqn:E'; [|exact IH].
      apply seq_eqb_N_true in E'. subst k0.
      rewrite str_eqb_sym in E. now rewrite E.
Qed.

Lemma getitem_app (d d' : dict) (k : str) :
  getitem (d ++ d') k
  = match getitem d k with
    | Some v => Some v
    | None => getitem d' k
    end.
Proof.
  unfold getitem. induction d as [|[k0 v0] d IH]; [reflexivity|].
  cbn [app find fst]. now destruct (str_eqb k0 k).
Qed.

Lemma getitem_update (other d : dict) (k : str) :
  getitem (update d other) k
  = match getitem (rev other) k with
    | Some v => Some v
    | None => getitem d k
    end.
Proof.
  unfold update. revert d.
  induction other as [|[k0 v0] other IH]; intros d; [reflexivity|].
  cbn [fold_left fst snd rev]. rewrite IH, getitem_app, getitem_setitem.
  destruct (getitem (rev other) k); [reflexivity|].
  unfold getitem. cbn [find fst]. now destruct (str_eqb k0 k).
Qed.

(** A header given in [extra_headers] replaces the header of that name that
    the function computed, [Content-Type] for one, and a name that
    [extra_headers] does not hold keeps its value: the value under a name is
    the one of its last binding in [extra_headers] (a dict has one), or
    else the computed one. *)
Theorem extra_headers_replace_computed_ones :
  forall (content : content) (content_type : str) (extra : dict) (name : str),
    getitem (extended_headers content content_type (Some extra)) name
    = match getitem (rev extra) name with
      | Some value => Some value
      | None => getitem (minimal_headers content content_type) name
      end.
Proof.
  intros content content_type extra name. unfold extended_headers.
  destruct extra as [|kv extra]; [reflexivity|].
  apply getitem_update.
Qed.

(** The two headers of a content: [Content-Length] is [len(content)] in
    decimal and [Content-Type] is the argument. *)
Lemma getitem_content_headers (content : content) (content_type : str) :
  truthy content = true ->
  getitem (minimal_headers content content_type) (u "Content-Length")
  = Some (str_of_int (len content))
  /\ getitem (minimal_headers content content_type) (u "Content-Type")
     = Some content_type.
Proof.
  intros H. unfold minimal_headers. rewrite H.
  rewrite !getitem_setitem. split; reflexivity.
Qed.

(** ** The announced length of a [str] content *)

Lemma utf8_encode_char_length (c : char) (enc : bytes) :
  utf8_encode_char c = Some enc -> (1 <= length enc)%nat.
Proof.
  unfold utf8_encode_char. intros H.
  repeat match type of H with
    | (if ?c then _ else _) = _ => destruct c
    end; try discriminate H; apply Some_inj in H; subst enc; cbn [length]; lia.
Qed.

Lemma utf8_encode_length (s : str) :
  forall enc, utf8_encode s = Some enc -> (length s <= length enc)%nat.
Proof.
  induction s as [|c s IH]; intros enc H; cbn [utf8_encode] in H.
  - apply Some_inj in H. now subst.
  - destruct (utf8_encode_char c) as [x|] eqn:Ec; [|discriminate H].
    destruct (utf8_encode s) as [xs|]; [|discriminate H].
    apply Some_inj in H. subst enc. apply utf8_encode_char_length in Ec.
    specialize (IH xs eq_refl). rewrite length_app. cbn [length]. lia.
Qed.

(** The [Content-Length] of a [str] content is its number of characters,
    and the body is its UTF-8 encoding, never shorter and longer as soon as
    a character is not ASCII.  The listing of a directory begins with five
    such characters of three bytes each: its body is at least 10 bytes
    longer than the length its response announces. *)
Theorem listing_length_is_short_of_its_body :
  forall (path : str) (items : list str) (content_type : str) (body : bytes),
    let content := Str (Extended.listing path items) in
    message_body content = Some body ->
    getitem (extended_headers content content_type None) (u "Content-Length")
    = Some (str_of_int (N.of_nat (length (Extended.listing path items))))
    /\ (length (Extended.listing path items) + 10 <= length body)%nat.
Proof.
  intros path items content_type body content Hbody.
  assert (Htruthy : truthy content = true).
  { unfold content. rewrite listing_items. reflexivity. }
  split; [now apply (getitem_content_headers content content_type)|].
  unfold message_body in Hbody. rewrite Htruthy in Hbody.
  unfold content, encoded_content in Hbody.
  rewrite listing_items in Hbody |- *.
  rewrite utf8_encode_app in Hbody.
  change (utf8_encode (u "<h1>目录列表："))
    with (Some (b "<h1>目录列表：")) in Hbody.
  destruct (utf8_encode (path ++ _)) as [rest|] eqn:Hrest; [|discriminate Hbody].
  apply Some_inj in Hbody. subst body.
  apply utf8_encode_length in Hrest.
  rewrite !length_app in *.
  change (length (u "<h1>目录列表：")) with 9%nat.
  change (length (b "<h1>目录列表：")) with 19%nat.
  lia.
Qed.

Lemma listing_length_is_short_of_its_body_witness :
  let content := Str (Extended.listing (u "/docs/") [u "a.txt"]) in
  let body := returned (encode (Extended.listing (u "/docs/") [u "a.txt"])) in
  getitem (extended_headers content (u "text/html") None) (u "Content-Length")
  = Some (str_of_int (N.of_nat (length (Extended.listing (u "/docs/") [u "a.txt"]))))
  /\ (length (Extended.listing (u "/docs/") [u "a.txt"]) + 10 <= length body)%nat.
Proof.
  apply (listing_length_is_short_of_its_body
           (u "/docs/") [u "a.txt"] (u "text/html")
           (returned (encode (Extended.listing (u "/docs/") [u "a.txt"])))).
  vm_compute. reflexivity.
Defined.

Lemma bytes_content_length_is_body_length_witness :
  exists head,
    utf8_encode
      (u "HTTP/1.1 " ++ str_of_int 200 ++ u " " ++ u "OK" ++ CRLF
       ++ u "Server: SimplePythonWebServer" ++ CRLF
       ++ u "Connection: close" ++ CRLF
       ++ u "Content-Length: " ++ str_of_int (N.of_nat (length (b "hi"))) ++ CRLF
       ++ u "Content-Type: " ++ u "text/html" ++ CRLF ++ CRLF)
    = Some head
    /\ Minimal.create_response 200 (u "OK") (Bytes (b "hi")) (u "text/html")
       = Ok (head ++ b "hi")
    /\ Extended.create_response 200 (u "OK") (Bytes (b "hi")) (u "text/html") None
       = Ok (head ++ b "hi").
Proof.
  apply (bytes_content_length_is_body_length 200 (u "OK") (u "text/html") (b "hi")).
  - discriminate.
  - apply u_encodable.
  - apply u_encodable.
Defined.

(** ** A [GET] for a file *)

Lemma split_from_Forall (P : char -> Prop) (sep : str) (s : str) :
  forall (skip : nat) (cur : str),
    Forall P cur -> Forall P s ->
    Forall (Forall P) (split_from N.eqb sep skip cur s).
Proof.
  induction s as [|a s IH]; intros skip cur Hcur Hs; cbn [split_from].
  - constructor; [now apply Forall_rev|constructor].
  - inversion Hs as [|? ? Ha Hs']; subst.
    destruct skip as [|k]; [|now apply IH].
    destruct (startswith N.eqb (a :: s) sep).
    + constructor; [now apply Forall_rev|]. now apply IH.
    + apply IH; [now constructor|assumption].
Qed.

Lemma last_Forall {A} (P : A -> Prop) (l : list A) (d : A) :
  Forall P l -> P d -> P (last l d).
Proof.
  induction l as [|a l IH]; intros Hl Hd; [exact Hd|].
  inversion Hl; subst. destruct l; [assumption|]. now apply IH.
Qed.

Lemma basename_encodable (p : str) : encodable p -> encodable (OsPath.basename p).
Proof.
  intros H. unfold OsPath.basename, encodable.
  apply last_Forall; [|constructor].
  apply split_from_Forall; [constructor|exact H].
Qed.

Lemma file_headers_head (data : bytes) (mime_type : str) (attachment : option str) :
  encodable mime_type ->
  match attachment with Some filename => encodable filename | None => True end ->
  exists head,
    utf8_encode (message_head 200 (u "OK") (file_headers data mime_type attachment))
    = Some head.
Proof.
  intros Hm Ha. apply encodable_encode.
  unfold message_head, file_headers, fixed_headers.
  destruct data as [|x data], attachment as [filename|];
    cbn [app map concat fst snd]; encodable_parts;
    repeat constructor.
Qed.

Lemma minimal_create_response_file (data : bytes) (mime_type : str) (head : bytes) :
  utf8_encode (message_head 200 (u "OK") (file_headers data mime_type None)) = Some head ->
  Minimal.create_response 200 (u "OK") (Bytes data) mime_type = Ok (head ++ data).
Proof.
  intros Hhead. rewrite minimal_create_response_message.
  replace (minimal_headers (Bytes data) mime_type)
    with (file_headers data mime_type None) by (now destruct data).
  rewrite Hhead. destruct data; [|reflexivity].
  reflexivity.
Qed.

Lemma extended_create_response_file
      (data : bytes) (mime_type : str) (download : bool) (filename : str) (head : bytes) :
  utf8_encode
    (message_head 200 (u "OK")
       (file_headers data mime_type (if download then Some filename else None)))
  = Some head ->
  Extended.create_response 200 (u "OK") (Bytes data) mime_type
    (Some (if download
           then setitem [] (u "Content-Disposition")
                        (u "attachment; filename=" ++ dquote ++ filename ++ dquote)
           else []))
  = Ok (head ++ data).
Proof.
  intros Hhead. rewrite extended_create_response_message.
  match goal with
  | |- context [extended_headers ?c ?t ?x] =>
      replace (extended_headers c t x)
        with (file_headers data mime_type (if download then Some filename else None))
        by (now destruct data, download)
  end.
  rewrite Hhead. destruct data; reflexivity.
Qed.

Section AFile.
Variable self : SimpleWebServer.
Variable w : World.
Variable data : bytes.
Variable request_data : str.
Variable raw_path : str.
Variable rest : list str.
Hypothesis received : sock_recv w = Ok data.
Hypothesis decoded : utf8_decode Strict data = Some request_data.
Hypothesis parts : request_parts request_data = u "GET" :: raw_path :: rest.

Section InMinimal.
Let file_path := file_path_of self (minimal_path raw_path).
Hypothesis inside :
  startswith N.eqb (abs_path_of self w (minimal_path raw_path)) (root_dir self) = true.

Lemma minimal_no_file :
  isfile w file_path && access_R_OK w file_path = false ->
  responds_with w
    ([Recv 1024; Isfile file_path]
     ++ (if isfile w file_path then [Access file_path] else []))
    Responses.not_found (Minimal.handle_client self w []).
Proof.
  intros Hno. enter_minimal. read_request received decoded parts request_data.
  method_is_get.
  unfold file_path, abs_path_of, file_path_of, minimal_path in *.
  rewrite inside. cbn [negb]. run.
  destruct (isfile w _); run.
  - cbn [andb] in Hno. rewrite Hno. run. fixed_responses. first_send w.
  - fixed_responses. first_send w.
Qed.

Lemma minimal_file (content head : bytes) :
  isfile w file_path = true ->
  access_R_OK w file_path = true ->
  read_file w file_path = Ok content ->
  utf8_encode
    (message_head 200 (u "OK")
       (file_headers content (or_default (guess_type w file_path) (u "text/plain")) None))
  = Some head ->
  responds_with w [Recv 1024; Isfile file_path; Access file_path; OpenRead file_path]
                (head ++ content) (Minimal.handle_client self w []).
Proof.
  intros Hf Ha Hr Hhead. apply minimal_create_response_file in Hhead.
  enter_minimal. read_request received decoded parts request_data.
  method_is_get.
  unfold file_path, abs_path_of, file_path_of, minimal_path in *.
  rewrite inside. cbn [negb]. run. rewrite Hf. run. rewrite Ha. run. rewrite Hr.
  rewrite Hhead. first_send w.
Qed.
End InMinimal.

Section InExtended.
Let abs_path := abs_path_of self w (extended_path raw_path).
Hypothesis inside : startswith N.eqb abs_path (root_dir self) = true.
Hypothesis no_directory : isdir w abs_path = false.

Lemma extended_no_file :
  isfile w abs_path && access_R_OK w abs_path = false ->
  responds_with w
    ([Recv 1024; Isdir abs_path; Isfile abs_path]
     ++ (if isfile w abs_path then [Access abs_path] else []))
    Responses.not_found (Extended.handle_client self w []).
Proof.
  intros Hno. enter_extended. read_request received decoded parts request_data.
  method_is_get.
  unfold abs_path, abs_path_of, file_path_of, extended_path, minimal_path in *.
  rewrite inside. cbn [negb]. run. rewrite no_directory. run.
  destruct (isfile w _); run.
  - cbn [andb] in Hno. rewrite Hno. run. fixed_responses. first_send w.
  - fixed_responses. first_send w.
Qed.

Lemma extended_file (content head : bytes) :
  isfile w abs_path = true ->
  access_R_OK w abs_path = true ->
  read_file w abs_path = Ok content ->
  utf8_encode
    (message_head 200 (u "OK")
       (file_headers content
          (or_default (guess_type w abs_path) (u "application/octet-stream"))
          (if existsb (fun ext => endswith N.eqb abs_path ext) Extended.download_exts
           then Some (OsPath.basename abs_path) else None)))
  = Some head ->
  responds_with w
    [Recv 1024; Isdir abs_path; Isfile abs_path; Access abs_path; OpenRead abs_path]
    (head ++ content) (Extended.handle_client self w []).
Proof.
  intros Hf Ha Hr Hhead. apply extended_create_response_file in Hhead.
  enter_extended. read_request received decoded parts request_data.
  method_is_get.
  unfold abs_path, abs_path_of, file_path_of, extended_path, minimal_path in *.
  rewrite inside. cbn [negb]. run. rewrite no_directory. run.
  rewrite Hf. run. rewrite Ha. run. rewrite Hr.
  rewrite Hhead. first_send w.
Qed.
End InExtended.
End AFile.

(** In the minimal variant, a [GET] whose resolved path passes the test
    against the root and whose [file_path] is not a regular file, or is one
    that the process may not read, is answered with the 404 response.  The
    handler asks [isfile], then [access] only when [isfile] said yes, and
    opens nothing. *)
Theorem minimal_missing_or_unreadable_file_gives_404 :
  forall (self : SimpleWebServer) (w : World) (data : bytes) (request_data : str)
         (raw_path : str) (rest : list str),
    sock_recv w = Ok data ->
    utf8_decode Strict data = Some request_data ->
    request_parts request_data = u "GET" :: raw_path :: rest ->
    let file_path := file_path_of self (minimal_path raw_path) in
    startswith N.eqb (abs_path_of self w (minimal_path raw_path)) (root_dir self) = true ->
    isfile w file_path && access_R_OK w file_path = false ->
    Client.status_of Responses.not_found = Some 404
    /\ Client.body_of Responses.not_found = b "<h1>404 Not Found</h1>"
    /\ responds_with w
         ([Recv 1024; Isfile file_path]
          ++ (if isfile w file_path then [Access file_path] else []))
         Responses.not_found (Minimal.handle_client self w []).
Proof.
  intros self w data request_data raw_path rest Hr Hd Hp file_path Hin Hno.
  split; [apply ResponseFacts.statuses|]. split; [vm_compute; reflexivity|].
  now apply minimal_no_file with (data := data) (request_data := request_data) (rest := rest).
Qed.

Lemma minimal_missing_or_unreadable_file_gives_404_witness :
  let w := Scenario.world (Scenario.request (u "GET /missing.html HTTP/1.1")) in
  Client.status_of Responses.not_found = Some 404
  /\ Client.body_of Responses.not_found = b "<h1>404 Not Found</h1>"
  /\ responds_with w [Recv 1024; Isfile (u "/srv/root/missing.html")]
                   Responses.not_found (Minimal.handle_client Scenario.self w []).
Proof.
  apply (minimal_missing_or_unreadable_file_gives_404 Scenario.self
           (Scenario.world (Scenario.request (u "GET /missing.html HTTP/1.1")))
           (Scenario.request (u "GET /missing.html HTTP/1.1"))
           (u "GET /missing.html HTTP/1.1" ++ CRLF ++ u "Host: localhost" ++ CRLF ++ CRLF)
           (u "/missing.html") [u "HTTP/1.1"]);
    reflexivity.
Defined.

(** In the extended variant, a [GET] whose resolved path passes the test
    against the root and is no directory, and is not a regular file or is
    one that the process may not read, is answered with the 404 response.
    The handler asks [isdir], [isfile], then [access] only when [isfile]
    said yes, each about the resolved path, and opens nothing. *)
Theorem extended_missing_or_unreadable_file_gives_404 :
  forall (self : SimpleWebServer) (w : World) (data : bytes) (request_data : str)
         (raw_path : str) (rest : list str),
    sock_recv w = Ok data ->
    utf8_decode Strict data = Some request_data ->
    request_parts request_data = u "GET" :: raw_path :: rest ->
    let abs_path := abs_path_of self w (extended_path raw_path) in
    startswith N.eqb abs_path (root_dir self) = true ->
    isdir w abs_path = false ->
    isfile w abs_path && access_R_OK w abs_path = false ->
    Client.status_of Responses.not_found = Some 404
    /\ Client.body_of Responses.not_found = b "<h1>404 Not Found</h1>"
    /\ responds_with w
         ([Recv 1024; Isdir abs_path; Isfile abs_path]
          ++ (if isfile w abs_path then [Access abs_path] else []))
         Responses.not_found (Extended.handle_client self w []).
Proof.
  intros self w data request_data raw_path rest Hr Hd Hp abs_path Hin Hdir Hno.
  split; [apply ResponseFacts.statuses|]. split; [vm_compute; reflexivity|].
  now apply extended_no_file with (data := data) (request_data := request_data) (rest := rest).
Qed.

Lemma extended_missing_or_unreadable_file_gives_404_witness :
  let w :=
    with_file (Scenario.world (Scenario.request (u "GET /private.txt HTTP/1.1")))
              (u "/srv/root/private.txt") false (Ok (b "x")) in
  Client.status_of Responses.not_found = Some 404
  /\ Client.body_of Responses.not_found = b "<h1>404 Not Found</h1>"
  /\ responds_with w
       [Recv 1024; Isdir (u "/srv/root/private.txt"); Isfile (u "/srv/root/private.txt");
        Access (u "/srv/root/private.txt")]
       Responses.not_found (Extended.handle_client Scenario.self w []).
Proof.
  apply (extended_missing_or_unreadable_file_gives_404 Scenario.self
           (with_file (Scenario.world (Scenario.request (u "GET /private.txt HTTP/1.1")))
                      (u "/srv/root/private.txt") false (Ok (b "x")))
           (Scenario.request (u "GET /private.txt HTTP/1.1"))
           (u "GET /private.txt HTTP/1.1" ++ CRLF ++ u "Host: localhost" ++ CRLF ++ CRLF)
           (u "/private.txt") [u "HTTP/1.1"]);
    reflexivity.
Defined.

(** In the minimal variant, a [GET] for a regular file that the process
    may read and whose reading gives [content] is answered with status 200
    and [content] as the body.  The head holds the two fixed headers and,
    unless the file is empty, [Content-Length] with the number of bytes of
    [content] and [Content-Type] with the type that [guess_type] gives for
    [file_path], or [text/plain] when it gives none. *)
Theorem minimal_serves_the_file :
  forall (self : SimpleWebServer) (w : World) (data : bytes) (request_data : str)
         (raw_path : str) (rest : list str) (content : bytes),
    sock_recv w = Ok data ->
    utf8_decode Strict data = Some request_data ->
    request_parts request_data = u "GET" :: raw_path :: rest ->
    let file_path := file_path_of self (minimal_path raw_path) in
    let mime_type := or_default (guess_type w file_path) (u "text/plain") in
    startswith N.eqb (abs_path_of self w (minimal_path raw_path)) (root_dir self) = true ->
    isfile w file_path = true ->
    access_R_OK w file_path = true ->
    read_file w file_path = Ok content ->
    encodable mime_type ->
    exists head,
      utf8_encode (message_head 200 (u "OK") (file_headers content mime_type None))
      = Some head
      /\ responds_with w
           [Recv 1024; Isfile file_path; Access file_path; OpenRead file_path]
           (head ++ content) (Minimal.handle_client self w []).
Proof.
  intros self w data request_data raw_path rest content Hr Hd Hp file_path mime_type
         Hin Hf Ha Hread Hm.
  destruct (file_headers_head content mime_type None Hm I) as [head Hhead].
  exists head. split; [exact Hhead|].
  now apply minimal_file with (data := data) (request_data := request_data) (rest := rest).
Qed.

Lemma minimal_serves_the_file_witness :
  let w := Scenario.world (Scenario.request (u "GET /index.html HTTP/1.1")) in
  exists head,
    utf8_encode
      (u "HTTP/1.1 200 OK" ++ CRLF
       ++ u "Server: SimplePythonWebServer" ++ CRLF
       ++ u "Connection: close" ++ CRLF
       ++ u "Content-Length: 2" ++ CRLF
       ++ u "Content-Type: text/html" ++ CRLF ++ CRLF)
    = Some head
    /\ responds_with w
         [Recv 1024; Isfile (u "/srv/root/index.html"); Access (u "/srv/root/index.html");
          OpenRead (u "/srv/root/index.html")]
         (head ++ b "hi") (Minimal.handle_client Scenario.self w []).
Proof.
  apply (minimal_serves_the_file Scenario.self
           (Scenario.world (Scenario.request (u "GET /index.html HTTP/1.1")))
           (Scenario.request (u "GET /index.html HTTP/1.1"))
           (u "GET /index.html HTTP/1.1" ++ CRLF ++ u "Host: localhost" ++ CRLF ++ CRLF)
           (u "/index.html") [u "HTTP/1.1"] (b "hi"));
    try reflexivity.
  apply u_encodable.
Defined.

(** In the extended variant, a [GET] for a regular file that the process
    may read and whose reading gives [content] is answered with status 200
    and [content] as the body.  The head holds the two fixed headers;
    unless the file is empty, [Content-Length] with the number of bytes of
    [content] and [Content-Type] with the type that [guess_type] gives for
    the resolved path, or [application/octet-stream] when it gives none;
    and, when the resolved path ends in [.doc], [.docx], [.pdf], [.xlsx] or
    [.zip], [Content-Disposition] naming its last component as the file to
    save. *)
Theorem extended_serves_the_file :
  forall (self : SimpleWebServer) (w : World) (data : bytes) (request_data : str)
         (raw_path : str) (rest : list str) (content : bytes),
    sock_recv w = Ok data ->
    utf8_decode Strict data = Some request_data ->
    request_parts request_data = u "GET" :: raw_path :: rest ->
    let abs_path := abs_path_of self w (extended_path raw_path) in
    let mime_type := or_default (guess_type w abs_path) (u "application/octet-stream") in
    let attachment :=
      if existsb (fun ext => endswith N.eqb abs_path ext)
                 [u ".doc"; u ".docx"; u ".pdf"; u ".xlsx"; u ".zip"]
      then Some (OsPath.basename abs_path) else None in
    startswith N.eqb abs_path (root_dir self) = true ->
    isdir w abs_path = false ->
    isfile w abs_path = true ->
    access_R_OK w abs_path = true ->
    read_file w abs_path = Ok content ->
    encodable mime_type ->
    encodable abs_path ->
    exists head,
      utf8_encode (message_head 200 (u "OK") (file_headers content mime_type attachment))
      = Some head
      /\ responds_with w
           [Recv 1024; Isdir abs_path; Isfile abs_path; Access abs_path; OpenRead abs_path]
           (head ++ content) (Extended.handle_client self w []).
Proof.
  intros self w data request_data raw_path rest content Hr Hd Hp abs_path mime_type
         attachment Hin Hdir Hf Ha Hread Hm Hpath.
  destruct (file_headers_head content mime_type attachment Hm) as [head Hhead].
  { unfold attachment. destruct (existsb _ _); [|exact I].
    now apply basename_encodable. }
  exists head. split; [exact Hhead|].
  now apply extended_file with (data := data) (request_data := request_data) (rest := rest).
Qed.

Lemma extended_serves_the_file_witness :
  let w :=
    with_file (Scenario.world (Scenario.request (u "GET /report.pdf HTTP/1.1")))
              (u "/srv/root/report.pdf") true (Ok (b "%PDF")) in
  exists head,
    utf8_encode
      (u "HTTP/1.1 200 OK" ++ CRLF
       ++ u "Server: SimplePythonWebServer" ++ CRLF
       ++ u "Connection: close" ++ CRLF
       ++ u "Content-Length: 4" ++ CRLF
       ++ u "Content-Type: application/octet-stream" ++ CRLF
       ++ u "Content-Disposition: attachment; filename=" ++ dquote ++ u "report.pdf"
       ++ dquote ++ CRLF ++ CRLF)
    = Some head
    /\ responds_with w
         [Recv 1024; Isdir (u "/srv/root/report.pdf"); Isfile (u "/srv/root/report.pdf");
          Access (u "/srv/root/report.pdf"); OpenRead (u "/srv/root/report.pdf")]
         (head ++ b "%PDF") (Extended.handle_client Scenario.self w []).
Proof.
  apply (extended_serves_the_file Scenario.self
           (with_file (Scenario.world (Scenario.request (u "GET /report.pdf HTTP/1.1")))
                      (u "/srv/root/report.pdf") true (Ok (b "%PDF")))
           (Scenario.request (u "GET /report.pdf HTTP/1.1"))
           (u "GET /report.pdf HTTP/1.1" ++ CRLF ++ u "Host: localhost" ++ CRLF ++ CRLF)
           (u "/report.pdf") [u "HTTP/1.1"] (b "%PDF"));
    try reflexivity.
  - apply u_encodable.
  - apply (u_encodable "/srv/root/report.pdf").
Defined.

(** ** The test of the resolved path *)

(** A [GET] whose resolved path does not begin with the characters of
    [root_dir] is answered with the 403 response by either variant, before
    any question to the filesystem: nothing outside such a prefix is told
    to exist or not. *)
Theorem path_outside_the_prefix_gives_403 :
  forall (self : SimpleWebServer) (w : World) (data : bytes) (request_data : str)
         (raw_path : str) (rest : list str),
    sock_recv w = Ok data ->
    utf8_decode Strict data = Some request_data ->
    request_parts request_data = u "GET" :: raw_path :: rest ->
    Client.status_of Responses.forbidden = Some 403
    /\ (startswith N.eqb (abs_path_of self w (minimal_path raw_path)) (root_dir self)
        = false ->
        responds_with w [Recv 1024] Responses.forbidden (Minimal.handle_client self w []))
    /\ (startswith N.eqb (abs_path_of self w (extended_path raw_path)) (root_dir self)
        = false ->
        responds_with w [Recv 1024] Responses.forbidden (Extended.handle_client self w [])).
Proof.
  intros self w data request_data raw_path rest Hr Hd Hp.
  split; [apply ResponseFacts.statuses|]. split; intros Hout.
  - now apply minimal_outside_prefix
      with (data := data) (request_data := request_data) (raw_path := raw_path)
           (rest := rest).
  - now apply extended_outside_prefix
      with (data := data) (request_data := request_data) (raw_path := raw_path)
           (rest := rest).
Qed.

Lemma path_outside_the_prefix_gives_403_witness :
  let w := Scenario.world (Scenario.request (u "GET /../../etc/passwd HTTP/1.1")) in
  abs_path_of Scenario.self w (u "/../../etc/passwd") = u "/etc/passwd"
  /\ responds_with w [Recv 1024] Responses.forbidden
                   (Minimal.handle_client Scenario.self w [])
  /\ responds_with w [Recv 1024] Responses.forbidden
                   (Extended.handle_client Scenario.self w []).
Proof.
  split; [reflexivity|].
  destruct (path_outside_the_prefix_gives_403 Scenario.self
              (Scenario.world (Scenario.request (u "GET /../../etc/passwd HTTP/1.1")))
              (Scenario.request (u "GET /../../etc/passwd HTTP/1.1"))
              (u "GET /../../etc/passwd HTTP/1.1" ++ CRLF ++ u "Host: localhost"
               ++ CRLF ++ CRLF)
              (u "/../../etc/passwd") [u "HTTP/1.1"] eq_refl eq_refl eq_refl)
    as (_ & Hmin & Hext).
  split; [apply Hmin|apply Hext]; reflexivity.
Defined.

Section InsideRoot.
Variable self : SimpleWebServer.
Variable w : World.
Variable data : bytes.
Variable request_data : str.
Variable raw_path : str.
Variable rest : list str.
Hypothesis received : sock_recv w = Ok data.
Hypothesis decoded : utf8_decode Strict data = Some request_data.
Hypothesis parts : request_parts request_data = u "GET" :: raw_path :: rest.

Lemma minimal_inside_asks_isfile :
  startswith N.eqb (abs_path_of self w (minimal_path raw_path)) (root_dir self) = true ->
  exists result tr,
    Minimal.handle_client self w []
    = (result, Recv 1024 :: Isfile (file_path_of self (minimal_path raw_path)) :: tr).
Proof.
  intros Hin. enter_minimal. read_request received decoded parts request_data.
  method_is_get.
  unfold abs_path_of, file_path_of, minimal_path in *.
  rewrite Hin. cbn [negb]. run.
  all_calls; eexists; eexists; reflexivity.
Qed.

Lemma extended_inside_asks_isdir :
  startswith N.eqb (abs_path_of self w (extended_path raw_path)) (root_dir self) = true ->
  exists result tr,
    Extended.handle_client self w []
    = (result, Recv 1024 :: Isdir (abs_path_of self w (extended_path raw_path)) :: tr).
Proof.
  intros Hin. enter_extended. read_request received decoded parts request_data.
  method_is_get.
  unfold abs_path_of, file_path_of, extended_path, minimal_path in *.
  rewrite Hin. cbn [negb]. run.
  all_calls; eexists; eexists; reflexivity.
Qed.
End InsideRoot.

(** A [GET] whose resolved path is the root or lies below it, at a
    component boundary, is never refused: the handler goes on to ask the
    filesystem about the path, [isfile] in the minimal variant and [isdir]
    in the extended one. *)
Theorem path_within_the_root_is_looked_up :
  forall (self : SimpleWebServer) (w : World) (data : bytes) (request_data : str)
         (raw_path : str) (rest : list str),
    sock_recv w = Ok data ->
    utf8_decode Strict data = Some request_data ->
    request_parts request_data = u "GET" :: raw_path :: rest ->
    (within_root (root_dir self) (abs_path_of self w (minimal_path raw_path)) = true ->
     exists result tr,
       Minimal.handle_client self w []
       = (result, Recv 1024 :: Isfile (file_path_of self (minimal_path raw_path)) :: tr))
    /\ (within_root (root_dir self) (abs_path_of self w (extended_path raw_path)) = true ->
        exists result tr,
          Extended.handle_client self w []
          = (result,
             Recv 1024 :: Isdir (abs_path_of self w (extended_path raw_path)) :: tr)).
Proof.
  intros self w data request_data raw_path rest Hr Hd Hp.
  split; intros Hin%within_root_startswith.
  - now apply minimal_inside_asks_isfile
      with (data := data) (request_data := request_data) (rest := rest).
  - now apply extended_inside_asks_isdir
      with (data := data) (request_data := request_data) (rest := rest).
Qed.

Lemma path_within_the_root_is_looked_up_witness :
  let w := Scenario.world (Scenario.request (u "GET /docs/../docs/a.txt HTTP/1.1")) in
  (exists result tr,
      Minimal.handle_client Scenario.self w []
      = (result, Recv 1024 :: Isfile (u "/srv/root/docs/../docs/a.txt") :: tr))
  /\ (exists result tr,
         Extended.handle_client Scenario.self w []
         = (result, Recv 1024 :: Isdir (u "/srv/root/docs/a.txt") :: tr)).
Proof.
  destruct (path_within_the_root_is_looked_up Scenario.self
              (Scenario.world (Scenario.request (u "GET /docs/../docs/a.txt HTTP/1.1")))
              (Scenario.request (u "GET /docs/../docs/a.txt HTTP/1.1"))
              (u "GET /docs/../docs/a.txt HTTP/1.1" ++ CRLF ++ u "Host: localhost"
               ++ CRLF ++ CRLF)
              (u "/docs/../docs/a.txt") [u "HTTP/1.1"] eq_refl eq_refl eq_refl)
    as (Hmin & Hext).
  split; [apply Hmin|apply Hext]; reflexivity.
Defined.

(** ** What of the request is read *)

Section TwoWords.
Variable self : SimpleWebServer.
Variable w : World.
Variables data1 data2 : bytes.
Variables request1 request2 : str.
Variables method path : str.
Variables rest1 rest2 : list str.
Hypothesis decoded1 : utf8_decode Strict data1 = Some request1.
Hypothesis decoded2 : utf8_decode Strict data2 = Some request2.
Hypothesis parts1 : request_parts request1 = method :: path :: rest1.
Hypothesis parts2 : request_parts request2 = method :: path :: rest2.


End TwoWords.



(** ** Calls that raise *)

(** When [recv] raises, either handler answers with the fixed 500 response
    and closes the socket; it raises in turn only when that response cannot
    be sent. *)
Theorem failed_recv_gives_500 :
  forall (self : SimpleWebServer) (w : World) (e : exn),
    sock_recv w = Raise e ->
    Minimal.handle_client self w []
    = (if sock_sendall w 0 then Ok tt else Raise OSError,
       [Recv 1024; Sendall Responses.internal_error (sock_sendall w 0); Close])
    /\ Extended.handle_client self w []
       = (if sock_sendall w 0 then Ok tt else Raise OSError,
          [Recv 1024; Sendall Responses.internal_error (sock_sendall w 0); Close]).
Proof.
  intros self w e H. split.
  - enter_minimal. rewrite H. fixed_responses. run.
    destruct (sock_sendall w 0); reflexivity.
  - enter_extended. rewrite H. fixed_responses. run.
    destruct (sock_sendall w 0); reflexivity.
Qed.

Lemma failed_recv_gives_500_witness :
  let w := receiving (Scenario.world []) (Raise OSError) in
  Minimal.handle_client Scenario.self w []
  = (Ok tt, [Recv 1024; Sendall Responses.internal_error true; Close])
  /\ Extended.handle_client Scenario.self w []
     = (Ok tt, [Recv 1024; Sendall Responses.internal_error true; Close]).
Proof.
  apply (failed_recv_gives_500 Scenario.self
           (receiving (Scenario.world []) (Raise OSError)) OSError).
  reflexivity.
Defined.

(** ** On every path through a handler *)

(** Follow the handler call by call, keeping the answer of each call and
    of each test as a hypothesis; [leaf] closes a goal whose handler has
    run to its end and fails on any other. *)
Ltac on_every_path leaf :=
  repeat first
    [ progress (run; fixed_responses)
    | leaf
    | match goal with
      | |- context [if negb ?c then _ else _] => destruct c eqn:?; cbn [negb]
      | |- context [if ?c then _ else _] => destruct c eqn:?
      end
    | next_call ].

Ltac from_the_first_read leaf :=
  match goal with
  | |- context [sock_recv ?w] =>
      destruct (sock_recv w) as [?data|?e] eqn:?; [|on_every_path leaf];
      match goal with
      | |- context [utf8_decode Strict ?d] =>
          destruct (utf8_decode Strict d) as [[|? ?]|] eqn:?; on_every_path leaf
      end
  end.

(** The sends that are left open at the end of a path. *)
Ltac settle_sends :=
  repeat match goal with
    | |- context [sock_sendall ?w ?n] => destruct (sock_sendall w n)
    end.

Ltac at_the_end tac :=
  lazymatch goal with
  | |- context [Minimal.handle_client] => fail
  | |- context [Extended.handle_client] => fail
  | |- context [(_, _)] => solve [tac]
  end.

Ltac enter_both := split; [enter_minimal|enter_extended].

(** Either handler reads from the socket once, at most 1024 bytes and
    before anything else, and closes the socket once, as its last call,
    on every path: whatever is received, whatever the filesystem holds and
    whether a send succeeds or raises.  A request longer than 1024 bytes is
    not read to its end. *)
Theorem one_read_first_and_one_close_last :
  forall (self : SimpleWebServer) (w : World),
    (exists middle,
        snd (Minimal.handle_client self w []) = Recv 1024 :: middle ++ [Close]
        /\ Forall (fun e => match e with Recv _ | Close => False | _ => True end) middle)
    /\ (exists middle,
           snd (Extended.handle_client self w []) = Recv 1024 :: middle ++ [Close]
           /\ Forall (fun e => match e with Recv _ | Close => False | _ => True end)
                     middle).
Proof.
  intros self w.
  enter_both;
    from_the_first_read
      ltac:(idtac;
            match goal with
            | |- exists middle, snd (_, Recv 1024 :: ?tr) = _ /\ _ =>
                let middle := eval cbv beta iota delta [removelast] in (removelast tr) in
                exists middle; split; [reflexivity|repeat constructor]
            end).
Qed.

(** Either handler raises only when the last thing it did to the client
    was a [sendall] that raised: an exception of [recv], of the decoding,
    of the filesystem or of a first [sendall] never leaves it. *)
Theorem handler_raises_only_when_its_last_send_does :
  forall (self : SimpleWebServer) (w : World),
    raises_with_its_last_send (Minimal.handle_client self w [])
    /\ raises_with_its_last_send (Extended.handle_client self w []).
Proof.
  intros self w.
  enter_both;
    from_the_first_read
      ltac:(idtac; at_the_end ltac:(settle_sends; reflexivity)).
Qed.

(** Either handler calls [sendall] at most twice, and a second time only
    when the first call raised: what it then sends is the fixed 500
    response. *)
Theorem second_send_is_the_500_after_a_failed_send :
  forall (self : SimpleWebServer) (w : World),
    retries_once_with Responses.internal_error (snd (Minimal.handle_client self w []))
    /\ retries_once_with Responses.internal_error
                         (snd (Extended.handle_client self w [])).
Proof.
  intros self w.
  enter_both;
    from_the_first_read
      ltac:(idtac; at_the_end ltac:(settle_sends; cbn; first [exact I|reflexivity])).
Qed.

Ltac each_event tac :=
  cbn [snd sent];
  repeat (apply Forall_cons; [cbn [fs_path]; tac|]); apply Forall_nil.

Ltac by_the_answers :=
  first [exact I | assumption | split; [assumption|]; first [assumption|split; assumption]].

(** A file is opened only after the filesystem said that its path is a
    regular file and that the process may read it and, in the extended
    variant, that it is no directory. *)
Theorem only_a_readable_file_is_opened :
  forall (self : SimpleWebServer) (w : World),
    Forall (fun e =>
              match e with
              | OpenRead p => isfile w p = true /\ access_R_OK w p = true
              | _ => True
              end)
           (snd (Minimal.handle_client self w []))
    /\ Forall (fun e =>
                 match e with
                 | OpenRead p =>
                     isdir w p = false /\ isfile w p = true /\ access_R_OK w p = true
                 | _ => True
                 end)
              (snd (Extended.handle_client self w [])).
Proof.
  intros self w.
  enter_both;
    from_the_first_read ltac:(idtac; at_the_end ltac:(each_event by_the_answers)).
Qed.

(** The filesystem is only asked about a path that passed the test
    against the root: every path handed to [isdir], [isfile], [access],
    [listdir] or [open] begins with [root_dir] in the extended variant, and
    has an [abspath] that does in the minimal variant, which hands over the
    path as joined. *)
Theorem every_lookup_passed_the_prefix_test :
  forall (self : SimpleWebServer) (w : World),
    Forall (fun e =>
              match fs_path e with
              | Some p =>
                  startswith N.eqb (OsPath.abspath (getcwd w) p) (root_dir self) = true
              | None => True
              end)
           (snd (Minimal.handle_client self w []))
    /\ Forall (fun e =>
                 match fs_path e with
                 | Some p => startswith N.eqb p (root_dir self) = true
                 | None => True
                 end)
              (snd (Extended.handle_client self w [])).
Proof.
  intros self w.
  enter_both;
    from_the_first_read ltac:(idtac; at_the_end ltac:(each_event by_the_answers)).
Qed.

Ltac cases_of_In H :=
  repeat (destruct H as [H|H]; [try discriminate H|]); try contradiction H.

(** When the file that a handler opens cannot be read, [open] or [read]
    raising after [isfile] and [access] said yes, the one thing the
    handler sends is the fixed 500 response. *)
Theorem failed_read_gives_500 :
  forall (self : SimpleWebServer) (w : World) (p : str) (e : exn),
    read_file w p = Raise e ->
    (In (OpenRead p) (snd (Minimal.handle_client self w [])) ->
     sent (snd (Minimal.handle_client self w [])) = [Responses.internal_error])
    /\ (In (OpenRead p) (snd (Extended.handle_client self w [])) ->
        sent (snd (Extended.handle_client self w [])) = [Responses.internal_error]).
Proof.
  intros self w p e Hfail.
  enter_both;
    from_the_first_read
      ltac:(idtac;
            at_the_end
              ltac:(cbn [snd sent In]; intros Hin;
                    first [reflexivity | exfalso; cases_of_In Hin; congruence])).
Qed.

Lemma failed_read_gives_500_witness :
  let w :=
    with_file (Scenario.world (Scenario.request (u "GET /gone.txt HTTP/1.1")))
              (u "/srv/root/gone.txt") true (Raise OSError) in
  (In (OpenRead (u "/srv/root/gone.txt")) (snd (Minimal.handle_client Scenario.self w []))
   /\ sent (snd (Minimal.handle_client Scenario.self w [])) = [Responses.internal_error])
  /\ (In (OpenRead (u "/srv/root/gone.txt"))
         (snd (Extended.handle_client Scenario.self w []))
      /\ sent (snd (Extended.handle_client Scenario.self w []))
         = [Responses.internal_error]).
Proof.
  cbv zeta.
  assert (Hmin : In (OpenRead (u "/srv/root/gone.txt"))
                    (snd (Minimal.handle_client Scenario.self
                            (with_file
                               (Scenario.world
                                  (Scenario.request (u "GET /gone.txt HTTP/1.1")))
                               (u "/srv/root/gone.txt") true (Raise OSError)) [])))
    by (vm_compute; tauto).
  assert (Hext : In (OpenRead (u "/srv/root/gone.txt"))
                    (snd (Extended.handle_client Scenario.self
                            (with_file
                               (Scenario.world
                                  (Scenario.request (u "GET /gone.txt HTTP/1.1")))
                               (u "/srv/root/gone.txt") true (Raise OSError)) [])))
    by (vm_compute; tauto).
  destruct (failed_read_gives_500 Scenario.self
              (with_file (Scenario.world (Scenario.request (u "GET /gone.txt HTTP/1.1")))
                         (u "/srv/root/gone.txt") true (Raise OSError))
              (u "/srv/root/gone.txt") OSError eq_refl) as [Fmin Fext].
  split; (split; [assumption|]); [apply Fmin|apply Fext]; assumption.
Defined.

(** In the extended variant, a [GET] for a directory that [listdir] cannot
    read is answered by the handler of the listing, not by the one of the
    whole request: the response has status 500 and a body of its own, a
    [str] of 15 characters that is sent as 27 bytes under a
    [Content-Length] of 15. *)
Theorem unlistable_directory_gives_its_own_500 :
  forall (self : SimpleWebServer) (w : World) (data : bytes) (request_data : str)
         (raw_path : str) (rest : list str) (e : exn),
    sock_recv w = Ok data ->
    utf8_decode Strict data = Some request_data ->
    request_parts request_data = u "GET" :: raw_path :: rest ->
    let abs_path := abs_path_of self w (extended_path raw_path) in
    startswith N.eqb abs_path (root_dir self) = true ->
    isdir w abs_path = true ->
    listdir w abs_path = Raise e ->
    Client.status_of Responses.listing_failed = Some 500
    /\ Client.header (u "Content-Length") Responses.listing_failed = Some (u "15")
    /\ utf8_decode Strict (Client.body_of Responses.listing_failed)
       = Some (u "<h1>读取目录失败</h1>")
    /\ length (Client.body_of Responses.listing_failed) = 27%nat
    /\ responds_with w [Recv 1024; Isdir abs_path; Listdir abs_path]
                     Responses.listing_failed (Extended.handle_client self w []).
Proof.
  intros self w data request_data raw_path rest e Hr Hd Hp abs_path Hin Hdir Hls.
  repeat (split; [vm_compute; reflexivity|]).
  now apply extended_unlistable_directory
    with (data := data) (request_data := request_data) (rest := rest) (e := e).
Qed.

Lemma unlistable_directory_gives_its_own_500_witness :
  let w := Scenario.world (Scenario.request (u "GET /../rootevil HTTP/1.1")) in
  Client.status_of Responses.listing_failed = Some 500
  /\ Client.header (u "Content-Length") Responses.listing_failed = Some (u "15")
  /\ utf8_decode Strict (Client.body_of Responses.listing_failed)
     = Some (u "<h1>读取目录失败</h1>")
  /\ length (Client.body_of Responses.listing_failed) = 27%nat
  /\ responds_with w [Recv 1024; Isdir (u "/srv/rootevil"); Listdir (u "/srv/rootevil")]
                   Responses.listing_failed (Extended.handle_client Scenario.self w []).
Proof.
  apply (unlistable_directory_gives_its_own_500 Scenario.self
           (Scenario.world (Scenario.request (u "GET /../rootevil HTTP/1.1")))
           (Scenario.request (u "GET /../rootevil HTTP/1.1"))
           (u "GET /../rootevil HTTP/1.1" ++ CRLF ++ u "Host: localhost" ++ CRLF ++ CRLF)
           (u "/../rootevil") [u "HTTP/1.1"] OSError);
    reflexivity.
Defined.

(** ** The status line of what is sent *)

Lemma bytes_startswith_app (p s : bytes) : startswith Byte.eqb (p ++ s) p = true.
Proof.
  induction p as [|x p IH]; [now destruct s|].
  cbn [app startswith]. rewrite IH. now destruct x.
Qed.

Lemma status_line_200 (headers : dict) (body : option bytes) (response : bytes) :
  message (utf8_encode (message_head 200 (u "OK") headers)) body = Ok response ->
  existsb (fun line => startswith Byte.eqb response (line ++ [x0d; x0a])) status_lines
  = true.
Proof.
  intros H.
  change (message_head 200 (u "OK") headers)
    with ((u "HTTP/1.1 200 OK" ++ CRLF)
          ++ concat (map (fun kv => fst kv ++ u ": " ++ snd kv ++ CRLF) headers) ++ CRLF)
    in H.
  rewrite utf8_encode_app in H.
  change (utf8_encode (u "HTTP/1.1 200 OK" ++ CRLF))
    with (Some (b "HTTP/1.1 200 OK" ++ [x0d; x0a])) in H.
  destruct (utf8_encode (concat _ ++ CRLF)) as [h|]; [|discriminate H].
  destruct body as [d|]; [|discriminate H].
  cbn [message] in H. apply (f_equal returned) in H. cbn [returned] in H.
  subst response. rewrite <- app_assoc.
  unfold status_lines. cbn [existsb]. now rewrite bytes_startswith_app.
Qed.

Lemma minimal_200_status_line (content : content) (content_type : str) (response : bytes) :
  Minimal.create_response 200 (u "OK") content content_type = Ok response ->
  existsb (fun line => startswith Byte.eqb response (line ++ [x0d; x0a])) status_lines
  = true.
Proof. rewrite minimal_create_response_message. apply status_line_200. Qed.

Lemma extended_200_status_line
      (content : content) (content_type : str) (extra_headers : option dict)
      (response : bytes) :
  Extended.create_response 200 (u "OK") content content_type extra_headers = Ok response ->
  existsb (fun line => startswith Byte.eqb response (line ++ [x0d; x0a])) status_lines
  = true.
Proof. rewrite extended_create_response_message. apply status_line_200. Qed.

(** Whatever either handler sends begins with one of six status lines,
    [HTTP/1.1] with 200, 400, 403, 404, 405 or 500 and the reason of that
    code: a handler sends nothing else, and no other status. *)
Theorem every_response_begins_with_a_known_status_line :
  forall (self : SimpleWebServer) (w : World),
    Forall (fun response =>
              existsb (fun line => startswith Byte.eqb response (line ++ [x0d; x0a]))
                      status_lines = true)
           (sent (snd (Minimal.handle_client self w [])))
    /\ Forall (fun response =>
                 existsb (fun line => startswith Byte.eqb response (line ++ [x0d; x0a]))
                         status_lines = true)
              (sent (snd (Extended.handle_client self w []))).
Proof.
  intros self w.
  enter_both;
    from_the_first_read
      ltac:(idtac;
            at_the_end
              ltac:(each_event
                      ltac:(first [ reflexivity
                                  | eapply minimal_200_status_line; eassumption
                                  | eapply extended_200_status_line; eassumption ]))).
Qed.

(** ** A connection without a response *)

(** Either handler leaves a connection without having called [sendall]
    exactly when its [recv] returned zero bytes: whatever else happens,
    the client is sent something or at least a send is tried. *)
Theorem nothing_is_sent_only_when_nothing_was_received :
  forall (self : SimpleWebServer) (w : World),
    (sent (snd (Minimal.handle_client self w [])) = [] <-> sock_recv w = Ok [])
    /\ (sent (snd (Extended.handle_client self w [])) = [] <-> sock_recv w = Ok []).
Proof.
  intros self w.
  destruct (sock_recv w) as [[|x data]|e] eqn:Hrecv.
  - rewrite (minimal_zero_bytes self w Hrecv), (extended_zero_bytes self w Hrecv).
    split; split; reflexivity.
  - enter_both; rewrite Hrecv;
      (destruct (utf8_decode Strict (x :: data)) as [[|c l]|] eqn:Hdecode;
       [ now apply utf8_decode_not_empty in Hdecode | | ]);
      on_every_path
        ltac:(idtac; at_the_end ltac:(cbn [snd sent]; split; intros H; discriminate H)).
  - enter_both; rewrite Hrecv;
      on_every_path
        ltac:(idtac; at_the_end ltac:(cbn [snd sent]; split; intros H; discriminate H)).
Qed.

(** ** The names in a listing *)

Lemma concat_map_In {A} (f : A -> str) (items : list A) (item : A) :
  In item items ->
  exists before after, concat (map f items) = before ++ f item ++ after.
Proof.
  induction items as [|a items IH]; [intros []|]. intros [<-|H].
  - exists [], (concat (map f items)). reflexivity.
  - destruct (IH H) as (before & after & E).
    exists (f a ++ before), after. cbn [map concat]. now rewrite E, <- app_assoc.
Qed.

(** The listing of a directory holds the name of each entry as [listdir]
    gives it, between the [>] that ends the opening tag of its link and the
    closing tag: no character of a name is escaped or left out, be it
    [<], [&] or a quote. *)
Theorem listing_shows_each_name_as_it_is :
  forall (path : str) (items : list str) (item : str),
    In item items ->
    exists before after,
      Extended.listing path items
      = before ++ u ">" ++ item ++ u "</a></li>" ++ after.
Proof.
  intros path items item Hin. rewrite listing_items.
  destruct (concat_map_In (Extended.listing_item path) items item Hin)
    as (before & after & E).
  rewrite E. unfold Extended.listing_item.
  exists (u "<h1>目录列表：" ++ path ++ u "</h1><ul>" ++ before
          ++ u "<li><a href=" ++ dquote
          ++ replace_all N.eqb backslash (u "/") (OsPath.join path item) ++ dquote),
         (after ++ u "</ul>").
  now rewrite <- !app_assoc.
Qed.

Lemma listing_shows_each_name_as_it_is_witness :
  exists before after,
    Extended.listing (u "/") [u "a.txt"; u "<script>alert(1)</script>"]
    = before ++ u ">" ++ u "<script>alert(1)</script>" ++ u "</a></li>" ++ after.
Proof.
  apply (listing_shows_each_name_as_it_is
           (u "/") [u "a.txt"; u "<script>alert(1)</script>"]
           (u "<script>alert(1)</script>")).
  right. left. reflexivity.
Defined.

(** ** The root directory and the path of a request *)

Lemma sep_is_slash : OsPath.sep = [0x2F].
Proof. reflexivity. Qed.

Lemma startswith_nil (s : str) : startswith N.eqb s [] = true.
Proof. now destruct s. Qed.

Lemma isabs_cons (path : str) :
  OsPath.isabs path = true -> exists rest, path = 0x2F :: rest.
Proof.
  unfold OsPath.isabs. rewrite sep_is_slash.
  destruct path as [|c rest]; [discriminate|]. cbn [startswith].
  intros [Hc _]%andb_true_iff. apply N.eqb_eq in Hc. subst c. now exists rest.
Qed.

Lemma normpath_isabs (path : str) :
  OsPath.isabs path = true -> OsPath.isabs (OsPath.normpath path) = true.
Proof.
  intros H. destruct (isabs_cons path H) as [rest ->].
  unfold OsPath.normpath. unfold OsPath.isabs in H. rewrite H.
  destruct (startswith N.eqb _ (OsPath.sep ++ OsPath.sep) && _);
    rewrite sep_is_slash; cbn [repeat concat app]; unfold OsPath.isabs;
    rewrite sep_is_slash; cbn [startswith]; rewrite ?startswith_nil; reflexivity.
Qed.

Lemma lstrip_slashes (s : str) :
  startswith N.eqb (lstrip N.eqb (u "/") s) OsPath.sep = false.
Proof.
  rewrite sep_is_slash. change (u "/") with [0x2F].
  induction s as [|c s IH]; [reflexivity|].
  cbn [lstrip contains existsb]. rewrite orb_false_r.
  destruct (N.eqb c 0x2F) eqn:E; [exact IH|].
  cbn [startswith]. now rewrite E.
Qed.

Lemma str_startswith_app (p s : str) : startswith N.eqb (p ++ s) p = true.
Proof.
  induction p as [|c p IH]; [now destruct s|].
  cbn [app startswith]. now rewrite IH, N.eqb_refl.
Qed.

(** The root directory of a server is an absolute path, whatever
    [root_dir] the constructor is given, relative or not, as the working
    directory of a process is one. *)
Theorem root_dir_is_absolute :
  forall (cwd host : str) (port : N) (root : str),
    OsPath.isabs cwd = true ->
    OsPath.isabs (root_dir (init cwd host port root)) = true.
Proof.
  intros cwd host port root Hcwd. cbn [init root_dir]. unfold OsPath.abspath.
  apply normpath_isabs.
  destruct (OsPath.isabs root) eqn:Hroot; [exact Hroot|].
  destruct (isabs_cons cwd Hcwd) as [rest ->].
  unfold OsPath.join, OsPath.isabs in *. rewrite Hroot.
  destruct (endswith N.eqb _ _); rewrite sep_is_slash; cbn [app startswith];
    rewrite ?startswith_nil; reflexivity.
Qed.

Lemma root_dir_is_absolute_witness :
  root_dir (init (u "/home/user") (u "0.0.0.0") 9000 (u "../www/./site")) = u "/home/www/site"
  /\ OsPath.isabs (root_dir (init (u "/home/user") (u "0.0.0.0") 9000 (u "../www/./site")))
     = true.
Proof.
  split; [reflexivity|].
  apply (root_dir_is_absolute (u "/home/user") (u "0.0.0.0") 9000 (u "../www/./site")).
  reflexivity.
Defined.

(** The path of a request is always joined below the root: its leading
    slashes are all stripped, so that [os.path.join] never takes it for an
    absolute path that replaces [root_dir], and [file_path] is [root_dir]
    followed by the rest.  With an absolute [root_dir], the path that is
    tested is the normal form of [file_path], whatever the working
    directory is when the request comes. *)
Theorem request_path_is_joined_below_the_root :
  forall (self : SimpleWebServer) (w : World) (path : str),
    startswith N.eqb (file_path_of self path) (root_dir self) = true
    /\ (OsPath.isabs (root_dir self) = true ->
        abs_path_of self w path = OsPath.normpath (file_path_of self path)).
Proof.
  intros self w path.
  assert (Hjoin : startswith N.eqb (file_path_of self path) (root_dir self) = true).
  { unfold file_path_of, OsPath.join. rewrite lstrip_slashes.
    destruct (match root_dir self with [] => true | _ => _ end);
      apply str_startswith_app. }
  split; [exact Hjoin|].
  intros Habs. unfold abs_path_of, OsPath.abspath.
  replace (OsPath.isabs (file_path_of self path)) with true; [reflexivity|].
  symmetry. unfold OsPath.isabs in *.
  destruct (isabs_cons _ Habs) as [rest Hroot]. rewrite Hroot in Hjoin.
  destruct (file_path_of self path) as [|c p]; [discriminate Hjoin|].
  cbn [startswith] in Hjoin. apply andb_true_iff in Hjoin as [Hc _].
  rewrite sep_is_slash. cbn [startswith]. rewrite Hc, ?startswith_nil; reflexivity.
Qed.

Lemma request_path_is_joined_below_the_root_witness :
  let w := Scenario.world [] in
  file_path_of Scenario.self (u "//etc/passwd") = u "/srv/root/etc/passwd"
  /\ startswith N.eqb (file_path_of Scenario.self (u "//etc/passwd"))
                (root_dir Scenario.self) = true
  /\ abs_path_of Scenario.self w (u "//etc/passwd")
     = OsPath.normpath (file_path_of Scenario.self (u "//etc/passwd")).
Proof.
  split; [reflexivity|].
  destruct (request_path_is_joined_below_the_root
              Scenario.self (Scenario.world []) (u "//etc/passwd")) as [Hjoin Hnorm].
  split; [exact Hjoin|apply Hnorm; reflexivity].
Defined.

(** ** The accept loop *)

Lemma threads_app (events events' : list server_event) :
  threads (events ++ events') = threads events ++ threads events'.
Proof.
  induction events as [|e events IH]; [reflexivity|].
  destruct e; cbn [app threads]; now rewrite IH.
Qed.

Lemma serve_forever_threads (answers : list accepted) :
  threads (fst (serve_forever answers)) = connections answers.
Proof.
  induction answers as [|[client_socket|i] answers IH]; try reflexivity.
  cbn [serve_forever connections]. destruct (serve_forever answers) as [events e].
  cbn [fst threads] in *. now rewrite IH.
Qed.

Lemma serve_forever_ending (answers : list accepted) :
  snd (serve_forever answers)
  = match first_interruption answers with
    | Some i => Propagated i
    | None => Waiting
    end.
Proof.
  induction answers as [|[client_socket|i] answers IH]; try reflexivity.
  cbn [serve_forever first_interruption].
  now destruct (serve_forever answers) as [events e].
Qed.

Lemma serve_forever_keeps_listening (answers : list accepted) :
  ~ In ServerClose (fst (serve_forever answers)).
Proof.
  induction answers as [|[client_socket|i] answers IH]; cbn [serve_forever].
  - intros [H|[]]. discriminate H.
  - destruct (serve_forever answers) as [events e]. cbn [fst In] in *.
    intros [H|[H|H]]; [discriminate H|discriminate H|now apply IH].
  - intros [H|[]]. discriminate H.
Qed.

(** Once it listens, [start] starts one thread for each connection that
    [accept] returns, in the order of the connections and each with the
    socket of its own connection, and none once [accept] has raised; when
    [bind] or [listen] raises, no connection is accepted and no thread is
    started. *)
Theorem one_thread_for_each_accepted_connection :
  forall (self : SimpleWebServer) (bind listen : option interruption)
         (answers : list accepted),
    threads (fst (start self bind listen answers))
    = match bind, listen with
      | None, None => connections answers
      | _, _ => []
      end.
Proof.
  intros self bind listen answers. unfold start.
  destruct bind as [i|]; [reflexivity|]. destruct listen as [i|]; [reflexivity|].
  pose proof (serve_forever_threads answers) as H.
  destruct (serve_forever answers) as [events e]. cbn [fst] in H.
  destruct e as [|[|]|]; cbn [fst]; rewrite ?threads_app, H; cbn [threads app];
    now rewrite ?app_nil_r.
Qed.

(** [start] returns only after a Ctrl-C that arrives while it accepts,
    and it closes the listening socket then and only then: an exception
    of another class, from [bind], [listen] or [accept], leaves [start]
    with the socket open, and so does a Ctrl-C before the loop. *)
Theorem listening_socket_is_closed_only_on_ctrl_c :
  forall (self : SimpleWebServer) (bind listen : option interruption)
         (answers : list accepted),
    let outcome := start self bind listen answers in
    (snd outcome = Returned
     <-> bind = None /\ listen = None
         /\ first_interruption answers = Some KeyboardInterrupt)
    /\ (In ServerClose (fst outcome) <-> snd outcome = Returned)
    /\ (snd outcome = Returned ->
        exists events, fst outcome = events ++ [ServerClose]
                       /\ ~ In ServerClose events).
Proof.
  intros self bind listen answers. cbv zeta. unfold start.
  destruct bind as [i|].
  { cbn [fst snd In]. repeat split; try easy. intros [H|[]]. discriminate H. }
  destruct listen as [i|].
  { cbn [fst snd In]. repeat split; try easy.
    intros [H|[H|[]]]; discriminate H. }
  pose proof (serve_forever_ending answers) as He.
  pose proof (serve_forever_keeps_listening answers) as Hopen.
  destruct (serve_forever answers) as [events e]. cbn [fst snd] in *.
  assert (Hkeep : ~ In ServerClose ([Bind (host self, port self); Listen 5] ++ events)).
  { cbn [app In]. intros [H|[H|H]]; [discriminate H|discriminate H|now apply Hopen]. }
  destruct (first_interruption answers) as [[|]|]; subst e; cbn [fst snd].
  - repeat split; try easy.
    + intros _. apply in_or_app. right. now left.
    + intros _. eexists. split; [reflexivity|exact Hkeep].
  - repeat split; easy.
  - repeat split; easy.
Qed.

Lemma listening_socket_is_closed_only_on_ctrl_c_witness :
  start Scenario.self None None
        [Connection 4; Connection 5; Interrupted KeyboardInterrupt; Connection 6]
  = ([Bind (u "0.0.0.0", 9000); Listen 5; Accept; ThreadStart 4; Accept; ThreadStart 5;
      Accept; ServerClose], Returned)
  /\ start Scenario.self None None [Connection 4; Interrupted OtherException]
     = ([Bind (u "0.0.0.0", 9000); Listen 5; Accept; ThreadStart 4; Accept],
        Propagated OtherException)
  /\ exists events,
      fst (start Scenario.self None None
                 [Connection 4; Connection 5; Interrupted KeyboardInterrupt; Connection 6])
      = events ++ [ServerClose]
      /\ ~ In ServerClose events.
Proof.
  split; [reflexivity|]. split; [reflexivity|].
  apply (listening_socket_is_closed_only_on_ctrl_c Scenario.self None None
           [Connection 4; Connection 5; Interrupted KeyboardInterrupt; Connection 6]).
  reflexivity.
Defined.
